(** * matrun: building and launching MATLAB command lines

    A shallow embedding of [matrun.py]: the registry of command-line flags
    ([option_defaults]), the two wrapper templates and the class
    [MatlabRunner], followed by the properties of the command line it
    composes.

    Python objects are mutated in place and methods can raise, so a
    method is a computation over a [world] (the runner object and the log
    of the calls made to the operating system) that returns either an
    exception or a value, together with the world it leaves behind. *)

From Stdlib Require Import List String Ascii ZArith Bool Arith Permutation Lia.
From Stdlib Require Import Numbers.DecimalString Floats.SpecFloat.
Import ListNotations.

Local Open Scope list_scope.
Local Open Scope string_scope.

(** ** Python values and text *)

(** The values a caller can bind to a keyword argument.  The annotation of
    [set_options] names bool, str, int and float; nothing enforces it, so
    values of other types ([None], a bytes object) are part of the model. *)
Inductive value : Type :=
| VBool (b : bool)
| VStr (s : string)
| VInt (n : Z)
| VFloat (x : spec_float)
| VNone
| VBytes (data : string).

(** The double quote and the single quote, as one-character strings. *)
Definition dquote_char : ascii := "034"%char.
Definition squote_char : ascii := "'"%char.
Definition dquote : string := String dquote_char EmptyString.

(** [str(n)] of an int, which is what an f-string field renders. *)
Definition str_of_int (n : Z) : string := NilEmpty.string_of_int (Z.to_int n).

(** [sep.join(items)]. *)
Definition join (sep : string) (items : list string) : string :=
  String.concat sep items.

(** *** [repr] of a str, of a list and of a tuple of str

    A str is modelled over the code points 0..255.  [repr] picks the
    quote, escapes the quote and the backslash, writes tab, newline and
    carriage return as two characters and every other non-printable code
    point as a two-digit hexadecimal escape. *)
Definition hex_digit (n : nat) : ascii :=
  nth n ["0"; "1"; "2"; "3"; "4"; "5"; "6"; "7";
         "8"; "9"; "a"; "b"; "c"; "d"; "e"; "f"]%char "0"%char.

Definition hex2 (c : ascii) : string :=
  let n := nat_of_ascii c in
  String (hex_digit (n / 16)) (String (hex_digit (n mod 16)) EmptyString).

Definition is_printable (c : ascii) : bool :=
  let n := nat_of_ascii c in
  (Nat.leb 32 n && Nat.ltb n 127) || (Nat.leb 161 n && negb (Nat.eqb n 173)).

Fixpoint has_char (c : ascii) (s : string) : bool :=
  match s with
  | EmptyString => false
  | String d s' => Ascii.eqb c d || has_char c s'
  end.

Definition repr_char (quote c : ascii) : string :=
  if Ascii.eqb c quote || Ascii.eqb c "\"%char then String "\"%char (String c EmptyString)
  else if Ascii.eqb c "009"%char then "\t"
  else if Ascii.eqb c "010"%char then "\n"
  else if Ascii.eqb c "013"%char then "\r"
  else if is_printable c then String c EmptyString
  else "\x" ++ hex2 c.

Fixpoint repr_body (quote : ascii) (s : string) : string :=
  match s with
  | EmptyString => EmptyString
  | String c s' => repr_char quote c ++ repr_body quote s'
  end.

Definition str_repr (s : string) : string :=
  let quote :=
    if has_char squote_char s && negb (has_char dquote_char s)
    then dquote_char else squote_char in
  String quote (repr_body quote s ++ String quote EmptyString).

Definition list_repr (items : list string) : string :=
  "[" ++ join ", " (map str_repr items) ++ "]".

Definition tuple_repr (items : list string) : string :=
  match items with
  | [x] => "(" ++ str_repr x ++ ",)"
  | _ => "(" ++ join ", " (map str_repr items) ++ ")"
  end.

(** ** Exceptions *)

(** An exception is its class and its message. *)
Record exception : Type := mkException { exc_class : string; exc_msg : string }.

Definition ValueError (msg : string) : exception := mkException "ValueError" msg.
Definition FileExistsError (msg : string) : exception := mkException "FileExistsError" msg.
Definition IndexError (msg : string) : exception := mkException "IndexError" msg.

(** Raised by [str_format] on a replacement field that the model does not
    cover (a named or numbered field, a conversion, a format spec).  The
    two templates of this module contain no such field. *)
Definition Unmodelled (what : string) : exception := mkException "<unmodelled>" what.

(** Pure code that can raise. *)
Definition result (A : Type) : Type := (exception + A)%type.

Definition rbind {A B : Type} (r : result A) (k : A -> result B) : result B :=
  match r with
  | inl e => inl e
  | inr a => k a
  end.

(** A list comprehension [[f(x) for x in items]]: the first element on
    which [f] raises ends the evaluation. *)
Fixpoint list_comprehension {A B : Type} (f : A -> result B) (items : list A)
  : result (list B) :=
  match items with
  | [] => inr []
  | x :: rest =>
      rbind (f x) (fun y =>
      rbind (list_comprehension f rest) (fun ys => inr (y :: ys)))
  end.

(** [template.format] on positional arguments, for templates whose only fields are the
    auto-numbered [{}]; a doubled brace stands for one brace. *)
Fixpoint str_format (template : string) (args : list string) : result string :=
  match template with
  | EmptyString => inr EmptyString
  | String c rest =>
      if Ascii.eqb c "{"%char then
        match rest with
        | EmptyString => inl (ValueError "Single '{' encountered in format string")
        | String d rest' =>
            if Ascii.eqb d "{"%char then
              rbind (str_format rest' args) (fun r => inr (String "{"%char r))
            else if Ascii.eqb d "}"%char then
              match args with
              | [] => inl (IndexError
                  "Replacement index out of range for positional args tuple")
              | a :: args' =>
                  rbind (str_format rest' args') (fun r => inr (a ++ r))
              end
            else inl (Unmodelled "replacement field")
        end
      else if Ascii.eqb c "}"%char then
        match rest with
        | String d rest' =>
            if Ascii.eqb d "}"%char then
              rbind (str_format rest' args) (fun r => inr (String "}"%char r))
            else inl (ValueError "Single '}' encountered in format string")
        | EmptyString => inl (ValueError "Single '}' encountered in format string")
        end
      else rbind (str_format rest args) (fun r => inr (String c r))
  end.

(** ** Dictionaries

    A Python dict keeps its keys in insertion order and holds each key
    once: assigning to a key that is present replaces its value where it
    stands, assigning to a new key appends it. *)
Definition dict : Type := list (string * value).

Definition dict_keys (d : dict) : list string := map fst d.

Fixpoint dict_get (k : string) (d : dict) : option value :=
  match d with
  | [] => None
  | (k', v) :: rest => if String.eqb k k' then Some v else dict_get k rest
  end.

(** [k in d]. *)
Definition dict_contains (k : string) (d : dict) : bool :=
  existsb (String.eqb k) (dict_keys d).

(** [d[k] = v]. *)
Fixpoint dict_setitem (k : string) (v : value) (d : dict) : dict :=
  match d with
  | [] => [(k, v)]
  | (k', v') :: rest =>
      if String.eqb k k' then (k', v) :: rest
      else (k', v') :: dict_setitem k v rest
  end.

(** [d.update(other)]. *)
Definition dict_update (d other : dict) : dict :=
  fold_left (fun acc kv => dict_setitem (fst kv) (snd kv) acc) other d.

(** The display [{**a, **b, **c}]: a new dict updated with each part in
    turn. *)
Definition dict_display (parts : list dict) : dict :=
  fold_left dict_update parts [].

(** [a or b] on dicts: an empty dict is falsy. *)
Definition dict_or (a b : dict) : dict :=
  match a with
  | [] => b
  | _ :: _ => a
  end.

(** ** Sets of str

    A set is kept as a duplicate-free list; the order in which Python
    iterates it depends on the hashes of its elements and is left to the
    parameter [list_of_set] of the section below. *)
Definition pyset : Type := list string.

Definition set_of (items : list string) : pyset := nodup string_dec items.

Definition set_difference (a b : pyset) : pyset :=
  filter (fun x => negb (existsb (String.eqb x) b)) a.

Definition set_truthy (s : pyset) : bool :=
  match s with
  | [] => false
  | _ :: _ => true
  end.

(** ** The module's constants *)

(** The registry of flags, in the order of the source. *)
Definition option_defaults : dict :=
  [ ("nodesktop", VBool false);
    ("noFigureWindows", VBool false);
    ("nosplash", VBool false);
    ("sd", VBool false);
    ("useStartupFolderPref", VBool false);
    ("logfile", VBool false);
    ("jbd", VBool false);
    ("singleCompThread", VBool false);
    ("nouserjavapath", VBool false);
    ("softwareopengl", VBool false);
    ("nosoftwareopengl", VBool false);
    ("automation", VBool false);
    ("regserver", VBool false);
    ("unregserver", VBool false);
    ("wait", VBool false) ].

Definition try_catch_wrapper : string :=
  "try, {}, catch err, fprintf('%s %s', err.identifier, err.message), end".

Definition exit_wrapper : string := "{}, exit".

(** ** The runner and its world *)

Record MatlabRunner : Type := mkRunner {
  _exe_path : string;
  _options : dict
}.

(** What the runner asks of the operating system. *)
Inductive event : Type :=
| ev_isfile (path : string)
| ev_subprocess_call (command : string) (kwargs : dict).

Record world : Type := mkWorld {
  self : MatlabRunner;
  trace : list event
}.

Definition M (A : Type) : Type := world -> result A * world.

Definition ret {A : Type} (a : A) : M A := fun w => (inr a, w).

Definition raise {A : Type} (e : exception) : M A := fun w => (inl e, w).

Definition bind {A B : Type} (m : M A) (k : A -> M B) : M B :=
  fun w =>
    match m w with
    | (inl e, w') => (inl e, w')
    | (inr a, w') => k a w'
    end.

Definition lift {A : Type} (r : result A) : M A := fun w => (r, w).

Definition get_self : M MatlabRunner := fun w => (inr (self w), w).

Definition put_self (r : MatlabRunner) : M unit :=
  fun w => (inr tt, mkWorld r (trace w)).

Definition emit (e : event) : M unit :=
  fun w => (inr tt, mkWorld (self w) (trace w ++ [e])%list).

Declare Scope py_scope.
Delimit Scope py_scope with py.
Notation "x <- m ;; k" := (bind m (fun x => k))
  (at level 100, m at next level, right associativity) : py_scope.
Notation "m ;;; k" := (bind m (fun _ => k))
  (at level 100, right associativity) : py_scope.
Local Open Scope py_scope.

(** The statement argument of [execute]: one str, or a list of str. *)
Inductive statement_arg : Type :=
| SingleLine (s : string)
| MultiLine (lines : list string).

(** ** Sample parameters

    The model is parametric in the rendering of floats, in the order in
    which a set is iterated, in the file system and in the child
    process.  The closed examples at the end of the file run it on the
    following ones. *)

(** A stand-in rendering, for examples in which no float occurs. *)
Definition sample_format_float : spec_float -> string := fun _ => "nan".

(** Sets iterated in the order in which they were built. *)
Definition insertion_order : pyset -> list string := fun s => s.

(** A file system on which every path is a file, and one with no file. *)
Definition every_path_is_a_file : string -> bool := fun _ => true.
Definition no_file : string -> bool := fun _ => false.

(** A child process that always exits with status 0. *)
Definition child_exits_0 : string -> dict -> result Z := fun _ _ => inr 0%Z.

(** A proof depends on the parameters that its statement names, and on
    no other. *)
Set Default Proof Using "Type".

Section Runner.

(** The rendering of a float in an f-string field. *)
Variable format_float : spec_float -> string.

(** The order in which a set is iterated. *)
Variable list_of_set : pyset -> list string.

(** [os.path.isfile] on the file system of the moment. *)
Variable isfile : string -> bool.

(** [subprocess.call]: the exit code of the child, or what it raised. *)
Variable subprocess_call : string -> dict -> result Z.

(** Whatever the order of iteration, a set is iterated once over each
    of its elements. *)
Hypothesis list_of_set_perm : forall s, Permutation (list_of_set s) s.

Definition _build_options_parameter (k : string) (v : value)
  : result (option string) :=
  if negb (dict_contains k option_defaults) then
    inl (ValueError ("Key " ++ k ++ " is not a valid matlab.exe flag."
                     ++ "Valid flags are "
                     ++ tuple_repr (dict_keys option_defaults)))
  else
    match v with
    | VBool true => inr (Some ("-" ++ k))
    | VBool false => inr None
    | VStr s => inr (Some ("-" ++ k ++ " " ++ dquote ++ s ++ dquote))
    | VInt n => inr (Some ("-" ++ k ++ " " ++ str_of_int n))
    | VFloat x => inr (Some ("-" ++ k ++ " " ++ format_float x))
    | _ => inl (ValueError ("Value for Key " ++ k
                            ++ " is not a number or a string"))
    end.

(** The tokens that are not [None], in order. *)
Definition not_none (params : list (option string)) : list string :=
  flat_map (fun param => match param with Some t => [t] | None => [] end) params.

Definition _build_options_string : M string :=
  me <- get_self ;;
  params <- lift (list_comprehension
                    (fun kv => _build_options_parameter (fst kv) (snd kv))
                    (_options me)) ;;
  ret (join " " (not_none params)).

Definition _build_command_header : M string :=
  me <- get_self ;;
  opts <- _build_options_string ;;
  ret (_exe_path me ++ " " ++ opts).

Definition set_exe_path (exe_path : string) : M unit :=
  me <- get_self ;;
  put_self (mkRunner exe_path (_options me)).

(** The first line of [set_options]: the supplied keys that are not
    keys of the registry, as a set. *)
Definition invalid_options (options : dict) : pyset :=
  set_difference (set_of (dict_keys options))
                 (set_of (dict_keys option_defaults)).

Definition set_options (options : dict) : M unit :=
  me <- get_self ;;
  if set_truthy (invalid_options options) then
    raise (ValueError ("Invalid options: "
                       ++ list_repr (list_of_set (invalid_options options))))
  else
    put_self (mkRunner (_exe_path me)
                (dict_display [option_defaults; _options me; dict_or options []])).

(** The constructor: the object's two attributes are assigned, then
    [set_options] runs on it. *)
Definition __init__ (exe_path : string) (options : dict) : M unit :=
  put_self (mkRunner exe_path []) ;;;
  set_options options.

Definition _assert_exe_exists : M unit :=
  me <- get_self ;;
  emit (ev_isfile (_exe_path me)) ;;;
  if negb (isfile (_exe_path me)) then
    raise (FileExistsError ("MATLAB executable at " ++ _exe_path me
                            ++ " does not exist"))
  else ret tt.

Definition execute (statement : statement_arg)
           (batch try_catch auto_exit : bool) (subprocess_kwargs : dict)
  : M unit :=
  _assert_exe_exists ;;;
  header <- _build_command_header ;;
  let run_option := if batch then "-batch" else "-r" in
  let statement :=
    match statement with
    | MultiLine lines => join ", " lines
    | SingleLine s => s
    end in
  statement <- (if try_catch
                then lift (str_format try_catch_wrapper [statement])
                else ret statement) ;;
  statement <- (if auto_exit
                then lift (str_format exit_wrapper [statement])
                else ret statement) ;;
  let command :=
    header ++ " " ++ run_option ++ " " ++ dquote ++ statement ++ dquote in
  emit (ev_subprocess_call command subprocess_kwargs) ;;;
  _ <- lift (subprocess_call command subprocess_kwargs) ;;
  ret tt.

(** ** Vocabulary of the properties *)

(** The types [_build_options_parameter] turns into a token or into
    [None]. *)
Definition supported (v : value) : bool :=
  match v with
  | VBool _ | VStr _ | VInt _ | VFloat _ => true
  | VNone | VBytes _ => false
  end.

Definition well_typed (d : dict) : Prop :=
  Forall (fun kv => supported (snd kv) = true) d.

(** Every key of [options] is a flag of the registry. *)
Definition valid_options (options : dict) : Prop :=
  forall k, In k (dict_keys options) -> dict_contains k option_defaults = true.

(** The keys of [options] that the registry does not know. *)
Definition offending (options : dict) (k : string) : Prop :=
  In k (dict_keys options) /\ dict_contains k option_defaults = false.

(** [needle] occurs in [hay]. *)
Definition contains (needle hay : string) : Prop :=
  exists pre post, hay = pre ++ needle ++ post.

Fixpoint containsb (needle hay : string) : bool :=
  String.prefix needle hay ||
  match hay with
  | EmptyString => false
  | String _ hay' => containsb needle hay'
  end.

(** The token of a flag as the specification words it: nothing for
    boolean-false, the bare flag for boolean-true, the flag and its
    quoted parameter for a string, the flag and its unquoted parameter
    for a number.  A value of another type has no token either. *)
Definition spec_flag_token (k : string) (v : value) : option string :=
  match v with
  | VBool true => Some ("-" ++ k)
  | VStr s => Some ("-" ++ k ++ " " ++ dquote ++ s ++ dquote)
  | VInt n => Some ("-" ++ k ++ " " ++ str_of_int n)
  | VFloat x => Some ("-" ++ k ++ " " ++ format_float x)
  | _ => None
  end.

(** The options string as the specification words it: the registry's
    names in their declared order, each looked up in the stored
    mapping, the tokens joined by one space. *)
Definition spec_options_string (stored : dict) : string :=
  join " "
    (flat_map
       (fun k =>
          match dict_get k stored with
          | Some v =>
              match spec_flag_token k v with
              | Some t => [t]
              | None => []
              end
          | None => []
          end)
       (dict_keys option_defaults)).

(** The try-catch wrapper and the exit wrapper, written out. *)
Definition wrapped_in_try_catch (s : string) : string :=
  "try, " ++ s
  ++ ", catch err, fprintf('%s %s', err.identifier, err.message), end".

Definition with_exit (s : string) : string := s ++ ", exit".

(** The command line: header, run-mode token, quoted statement. *)
Definition command_line (header : string) (batch : bool) (stmt : string)
  : string :=
  header ++ " " ++ (if batch then "-batch" else "-r") ++ " "
  ++ dquote ++ stmt ++ dquote.

(** The dict that a successful [set_options] stores. *)
Definition merged (stored options : dict) : dict :=
  dict_display [option_defaults; stored; dict_or options []].

(** What the builders compute from the runner, without the plumbing. *)
Definition options_string_of (stored : dict) : result string :=
  rbind (list_comprehension
           (fun kv => _build_options_parameter (fst kv) (snd kv)) stored)
        (fun params => inr (join " " (not_none params))).

Definition header_of (r : MatlabRunner) : result string :=
  rbind (options_string_of (_options r))
        (fun opts => inr (_exe_path r ++ " " ++ opts)).

(** The statement that [execute] quotes. *)
Definition final_statement (statement : statement_arg)
           (try_catch auto_exit : bool) : string :=
  let joined :=
    match statement with
    | MultiLine lines => join ", " lines
    | SingleLine s => s
    end in
  let wrapped := if try_catch then wrapped_in_try_catch joined else joined in
  if auto_exit then with_exit wrapped else wrapped.

(** The world after [execute] has probed the file system. *)
Definition probed (w : world) : world :=
  mkWorld (self w) (trace w ++ [ev_isfile (_exe_path (self w))])%list.

(** The stored options of the worked example: the registry with
    [nodesktop] switched on and [sd] set to a folder. *)
Definition example_stored : dict :=
  dict_setitem "sd" (VStr "/work")
    (dict_setitem "nodesktop" (VBool true) option_defaults).

Definition example_command : string :=
  "/bin/tool -nodesktop -sd " ++ dquote ++ "/work" ++ dquote
  ++ " -r " ++ dquote ++ "run" ++ dquote.

(** The value of [k] under the precedence of the merge: what the later
    mapping supplies, else what the earlier one holds. *)
Definition overriding (later : dict) (earlier : option value) (k : string)
  : option value :=
  match dict_get k later with
  | Some v => Some v
  | None => earlier
  end.

Definition example_header : string :=
  "/bin/tool -nodesktop -sd " ++ dquote ++ "/work" ++ dquote.

(** The runner of the worked example, before any call to the operating
    system. *)
Definition example_world : world :=
  mkWorld (mkRunner "/bin/tool" example_stored) [].

(** The runner objects a caller can hold: built by the constructor,
    then driven through the public methods. *)
Inductive reachable : MatlabRunner -> Prop :=
| reach_init exe options w w' :
    __init__ exe options w = (inr tt, w') -> reachable (self w')
| reach_set_options options r w w' :
    reachable (self w) -> set_options options w = (r, w') ->
    reachable (self w')
| reach_set_exe_path exe r w w' :
    reachable (self w) -> set_exe_path exe w = (r, w') ->
    reachable (self w')
| reach_execute stmt batch try_catch auto_exit kwargs r w w' :
    reachable (self w) ->
    execute stmt batch try_catch auto_exit kwargs w = (r, w') ->
    reachable (self w').

(** ** The script [control.py]

    The script builds a runner on a fixed path, sets three flags and
    executes two lines with the exit instruction appended. *)
Definition matlab_exe_path : string :=
  "C:/Program Files/MATLAB/R2016a/bin/matlab.exe".

Definition commands : list string :=
  ["output_folder='./data/level_c'"; "subprocess"].

Definition control : M unit :=
  __init__ matlab_exe_path [] ;;;
  set_options [("nodesktop", VBool true);
               ("nosplash", VBool true);
               ("logfile", VStr "subprocess_log.txt")] ;;;
  execute (MultiLine commands) false false true [].

(** The command that [control.py] composes, written out. *)
Definition control_command : string :=
  "C:/Program Files/MATLAB/R2016a/bin/matlab.exe -nodesktop -nosplash -logfile "
  ++ dquote ++ "subprocess_log.txt" ++ dquote ++ " -r " ++ dquote
  ++ "output_folder='./data/level_c', subprocess, exit" ++ dquote.

(** The options that [control.py] leaves in its runner. *)
Definition control_stored : dict :=
  dict_setitem "logfile" (VStr "subprocess_log.txt")
    (dict_setitem "nosplash" (VBool true)
       (dict_setitem "nodesktop" (VBool true) option_defaults)).

(** Two more sample runners: the one the constructor builds without
    options, and one in which [sd] was given [None]. *)
Definition bare_world : world :=
  mkWorld (mkRunner "/bin/tool" option_defaults) [].

Definition faulty_world : world :=
  mkWorld (mkRunner "/bin/tool" (dict_setitem "sd" VNone option_defaults)) [].

(** ** Text lemmas *)

Lemma append_assoc (a b c : string) : (a ++ b) ++ c = a ++ b ++ c.
Proof.
  induction a as [|x a IH]; simpl; [reflexivity | now rewrite IH].
Qed.

Lemma append_nil_r (a : string) : a ++ EmptyString = a.
Proof.
  induction a as [|x a IH]; simpl; [reflexivity | now rewrite IH].
Qed.

Lemma contains_refl (s : string) : contains s s.
Proof.
  exists EmptyString, EmptyString. simpl. now rewrite append_nil_r.
Qed.

Lemma contains_app_l (n a b : string) : contains n a -> contains n (a ++ b).
Proof.
  intros (pre & post & ->). exists pre, (post ++ b).
  now rewrite !append_assoc.
Qed.

Lemma contains_app_r (n a b : string) : contains n b -> contains n (a ++ b).
Proof.
  intros (pre & post & ->). exists (a ++ pre), post.
  now rewrite !append_assoc.
Qed.

Lemma contains_cons (n : string) (c : ascii) (b : string) :
  contains n b -> contains n (String c b).
Proof.
  intros H. apply (contains_app_r n (String c EmptyString) b H).
Qed.

Lemma prefix_app (n post : string) : String.prefix n (n ++ post) = true.
Proof.
  induction n as [|c n IH]; simpl.
  - now destruct post.
  - destruct (ascii_dec c c) as [_|ne]; [exact IH | now elim ne].
Qed.

Lemma containsb_eq (n h : string) :
  containsb n h =
  String.prefix n h ||
  match h with
  | EmptyString => false
  | String _ h' => containsb n h'
  end.
Proof. destruct h; reflexivity. Qed.

(** [containsb] finds every occurrence. *)
Lemma containsb_complete (n h : string) : contains n h -> containsb n h = true.
Proof.
  intros (pre & post & ->). induction pre as [|c pre IH].
  - rewrite containsb_eq. change (EmptyString ++ n ++ post) with (n ++ post).
    now rewrite prefix_app.
  - change (String c pre ++ n ++ post) with (String c (pre ++ n ++ post)).
    rewrite containsb_eq. cbv iota. rewrite IH. apply orb_true_r.
Qed.

Lemma join_cons (sep x : string) (l : list string) :
  join sep (x :: l) = match l with [] => x | _ :: _ => x ++ sep ++ join sep l end.
Proof. destruct l; reflexivity. Qed.

Lemma contains_join (sep x : string) (l : list string) :
  In x l -> contains x (join sep l).
Proof.
  induction l as [|y l IH]; [intros [] |]. intros [-> | Hin].
  - rewrite join_cons. destruct l; [apply contains_refl |].
    apply contains_app_l, contains_refl.
  - rewrite join_cons. destruct l as [|z l]; [destruct Hin |].
    apply contains_app_r, contains_app_r, IH, Hin.
Qed.

(** ** Dictionary lemmas *)

Lemma dict_contains_In (k : string) (d : dict) :
  dict_contains k d = true <-> In k (dict_keys d).
Proof.
  unfold dict_contains. rewrite existsb_exists. split.
  - intros (x & Hin & Heq). apply String.eqb_eq in Heq. now subst.
  - intros Hin. exists k. split; [exact Hin | apply String.eqb_refl].
Qed.

Lemma dict_get_None (k : string) (d : dict) :
  dict_get k d = None <-> ~ In k (dict_keys d).
Proof.
  induction d as [|[k' v] d IH]; simpl.
  - split; [intros _ [] | reflexivity].
  - destruct (String.eqb_spec k k') as [->|ne].
    + split; [discriminate | intros H; elim H; now left].
    + rewrite IH. split.
      * intros H [E|H']; [now elim ne | now elim H].
      * intros H H'. apply H. now right.
Qed.

Lemma dict_get_setitem (k k' : string) (v : value) (d : dict) :
  dict_get k (dict_setitem k' v d) =
  if String.eqb k k' then Some v else dict_get k d.
Proof.
  induction d as [|[k0 v0] d IH]; simpl.
  - reflexivity.
  - destruct (String.eqb_spec k' k0) as [->|ne]; simpl.
    + destruct (String.eqb k k0); reflexivity.
    + rewrite IH. destruct (String.eqb_spec k k') as [->|ne'].
      * destruct (String.eqb_spec k' k0); [now elim ne | reflexivity].
      * reflexivity.
Qed.

(** Assigning to a key that is present keeps the keys and their order. *)
Lemma dict_keys_setitem_present (k : string) (v : value) (d : dict) :
  In k (dict_keys d) -> dict_keys (dict_setitem k v d) = dict_keys d.
Proof.
  induction d as [|[k0 v0] d IH]; simpl; [intros [] |].
  intros Hin. destruct (String.eqb_spec k k0) as [->|ne]; simpl.
  - reflexivity.
  - f_equal. apply IH. destruct Hin as [E|Hin]; [now elim ne | exact Hin].
Qed.

Lemma dict_keys_update_present (other d : dict) :
  (forall k, In k (dict_keys other) -> In k (dict_keys d)) ->
  dict_keys (dict_update d other) = dict_keys d.
Proof.
  unfold dict_update. revert d.
  induction other as [|[k v] other IH]; intros d Hsub; simpl; [reflexivity |].
  rewrite IH.
  - apply dict_keys_setitem_present, Hsub. now left.
  - intros k' Hin. rewrite dict_keys_setitem_present.
    + apply Hsub. now right.
    + apply Hsub. now left.
Qed.

(** The value of a key after [d.update(other)]. *)
Lemma dict_get_update (k : string) (other d : dict) :
  NoDup (dict_keys other) ->
  dict_get k (dict_update d other) =
  match dict_get k other with
  | Some v => Some v
  | None => dict_get k d
  end.
Proof.
  unfold dict_update. revert d.
  induction other as [|[k' v'] other IH]; intros d Hnd; simpl; [reflexivity |].
  inversion Hnd as [|? ? Hnotin Hnd']; subst.
  rewrite (IH _ Hnd'), dict_get_setitem.
  destruct (String.eqb_spec k k') as [->|ne]; [| reflexivity].
  apply dict_get_None in Hnotin. now rewrite Hnotin.
Qed.

(** ** Validation in [set_options] *)

Lemma existsb_set_of (x : string) (l : list string) :
  existsb (String.eqb x) (set_of l) = existsb (String.eqb x) l.
Proof.
  unfold set_of.
  destruct (existsb (String.eqb x) l) eqn:E.
  - apply existsb_exists in E as (y & Hin & Heq). apply existsb_exists.
    exists y. split; [now apply nodup_In | exact Heq].
  - destruct (existsb (String.eqb x) (nodup string_dec l)) eqn:E'; [| reflexivity].
    apply existsb_exists in E' as (y & Hin & Heq). apply nodup_In in Hin.
    assert (existsb (String.eqb x) l = true) by (apply existsb_exists; eauto).
    congruence.
Qed.

(** The invalid options are exactly the offending keys. *)
Lemma In_invalid_options (options : dict) (k : string) :
  In k (invalid_options options) <-> offending options k.
Proof.
  unfold invalid_options, set_difference, offending.
  rewrite filter_In, existsb_set_of. unfold set_of. rewrite nodup_In.
  fold (dict_contains k option_defaults).
  destruct (dict_contains k option_defaults); simpl.
  - split; [intros [_ H] | intros [_ H]]; discriminate.
  - split; [intros [H _] | intros [H _]]; split; (exact H || reflexivity).
Qed.

Lemma invalid_options_valid (options : dict) :
  set_truthy (invalid_options options) = false <-> valid_options options.
Proof.
  unfold valid_options. split.
  - intros He k Hin.
    destruct (dict_contains k option_defaults) eqn:E; [reflexivity |].
    assert (Hoff : In k (invalid_options options))
      by (apply In_invalid_options; split; assumption).
    destruct (invalid_options options); [destruct Hoff | discriminate].
  - intros Hv. destruct (invalid_options options) as [|k l] eqn:E; [reflexivity |].
    assert (Hoff : In k (invalid_options options)) by (rewrite E; now left).
    apply In_invalid_options in Hoff as [Hin Hc].
    rewrite (Hv k Hin) in Hc. discriminate.
Qed.

Lemma invalid_options_offending (options : dict) (k : string) :
  offending options k -> set_truthy (invalid_options options) = true.
Proof.
  intros Hoff. apply In_invalid_options in Hoff.
  destruct (invalid_options options); [destruct Hoff | reflexivity].
Qed.

Lemma dict_or_empty (options : dict) : dict_or options [] = options.
Proof. destruct options; reflexivity. Qed.

(** The three-part display, as two updates of the registry. *)
Lemma merged_eq (stored options : dict) :
  merged stored options =
  dict_update (dict_update option_defaults stored) options.
Proof. unfold merged. rewrite dict_or_empty. reflexivity. Qed.

Lemma set_options_valid (options : dict) (w : world) :
  valid_options options ->
  set_options options w =
  (inr tt, mkWorld (mkRunner (_exe_path (self w))
                             (merged (_options (self w)) options))
                   (trace w)).
Proof.
  intros Hv. apply invalid_options_valid in Hv.
  unfold set_options, bind, get_self, put_self. now rewrite Hv.
Qed.

Lemma set_options_invalid (options : dict) (w : world) :
  set_truthy (invalid_options options) = true ->
  set_options options w =
  (inl (ValueError ("Invalid options: "
                    ++ list_repr (list_of_set (invalid_options options)))), w).
Proof.
  intros Hi. unfold set_options, bind, get_self, raise. now rewrite Hi.
Qed.

(** A call of [set_options] that returns has stored the merged dict. *)
Lemma set_options_inr (options : dict) (w w' : world) :
  set_options options w = (inr tt, w') ->
  valid_options options /\
  w' = mkWorld (mkRunner (_exe_path (self w))
                         (merged (_options (self w)) options))
               (trace w).
Proof.
  intros H. destruct (set_truthy (invalid_options options)) eqn:E.
  - rewrite (set_options_invalid _ _ E) in H. discriminate.
  - apply invalid_options_valid in E. rewrite (set_options_valid _ _ E) in H.
    split; [exact E | congruence].
Qed.

Lemma NoDup_option_defaults : NoDup (dict_keys option_defaults).
Proof.
  unfold option_defaults, dict_keys. simpl.
  repeat (constructor;
          [simpl; intros H;
           repeat (destruct H as [H | H]; [discriminate H |]); exact H |]).
  constructor.
Qed.

Lemma merged_keys (stored options : dict) :
  (forall k, In k (dict_keys stored) -> In k (dict_keys option_defaults)) ->
  valid_options options ->
  dict_keys (merged stored options) = dict_keys option_defaults.
Proof.
  intros Hs Hv. rewrite merged_eq, dict_keys_update_present.
  - now apply dict_keys_update_present.
  - intros k Hin. rewrite (dict_keys_update_present _ _ Hs).
    apply dict_contains_In, Hv, Hin.
Qed.

Lemma merged_get (stored options : dict) (k : string) :
  NoDup (dict_keys stored) -> NoDup (dict_keys options) ->
  dict_get k (merged stored options) =
  match dict_get k options with
  | Some v => Some v
  | None =>
      match dict_get k stored with
      | Some v => Some v
      | None => dict_get k option_defaults
      end
  end.
Proof.
  intros Hs Ho. rewrite merged_eq.
  now rewrite (dict_get_update _ _ _ Ho), (dict_get_update _ _ _ Hs).
Qed.

(** ** The builders and [execute], step by step *)

Lemma _build_options_string_eq (w : world) :
  _build_options_string w = (options_string_of (_options (self w)), w).
Proof.
  unfold _build_options_string, options_string_of, bind, get_self, lift, ret, rbind.
  now destruct (list_comprehension _ _).
Qed.

Lemma _build_command_header_eq (w : world) :
  _build_command_header w = (header_of (self w), w).
Proof.
  unfold _build_command_header, header_of, bind, get_self, ret, rbind.
  rewrite _build_options_string_eq.
  now destruct (options_string_of _).
Qed.

Lemma try_catch_wrapper_format (s : string) :
  str_format try_catch_wrapper [s] = inr (wrapped_in_try_catch s).
Proof. reflexivity. Qed.

Lemma exit_wrapper_format (s : string) :
  str_format exit_wrapper [s] = inr (with_exit s).
Proof. reflexivity. Qed.

Lemma _assert_exe_exists_eq (w : world) :
  _assert_exe_exists w =
  (if isfile (_exe_path (self w)) then inr tt
   else inl (FileExistsError ("MATLAB executable at " ++ _exe_path (self w)
                              ++ " does not exist")),
   probed w).
Proof.
  unfold _assert_exe_exists, bind, get_self, emit, raise, ret, probed. simpl.
  now destruct (isfile _).
Qed.

(** The run of [execute]: the probe, then the header, then the call. *)
Lemma execute_eq statement batch try_catch auto_exit kwargs (w : world) :
  execute statement batch try_catch auto_exit kwargs w =
  if isfile (_exe_path (self w)) then
    match header_of (self w) with
    | inl e => (inl e, probed w)
    | inr header =>
        let command :=
          command_line header batch
            (final_statement statement try_catch auto_exit) in
        (rbind (subprocess_call command kwargs) (fun _ => inr tt),
         mkWorld (self w)
           (trace w ++ [ev_isfile (_exe_path (self w));
                        ev_subprocess_call command kwargs])%list)
    end
  else
    (inl (FileExistsError ("MATLAB executable at " ++ _exe_path (self w)
                           ++ " does not exist")), probed w).
Proof.
  unfold execute. unfold bind at 1. rewrite _assert_exe_exists_eq.
  destruct (isfile (_exe_path (self w))); [| reflexivity].
  unfold bind at 1. rewrite _build_command_header_eq.
  change (self (probed w)) with (self w).
  destruct (header_of (self w)) as [e | header]; [reflexivity |].
  unfold final_statement, command_line.
  destruct try_catch, auto_exit;
    unfold bind, lift, ret, emit, rbind;
    rewrite ?try_catch_wrapper_format, ?exit_wrapper_format;
    unfold probed; simpl self; simpl trace; rewrite <- app_assoc; simpl app;
    destruct (subprocess_call _ _); reflexivity.
Qed.

(** ** The invariant of the stored options *)

Lemma execute_self statement batch try_catch auto_exit kwargs (w : world) :
  self (snd (execute statement batch try_catch auto_exit kwargs w)) = self w.
Proof.
  rewrite execute_eq.
  destruct (isfile _); [destruct (header_of _) |]; reflexivity.
Qed.

(** The stored keys are the registry's, in the registry's order. *)
Lemma reachable_keys (r : MatlabRunner) :
  reachable r -> dict_keys (_options r) = dict_keys option_defaults.
Proof.
  induction 1 as [exe options w w' Hinit
                 | options r w w' _ IH Hset
                 | exe r w w' _ IH Hset
                 | stmt batch tc ae kwargs r w w' _ IH Hex].
  - unfold __init__ in Hinit. unfold bind at 1 in Hinit. simpl in Hinit.
    apply set_options_inr in Hinit as [Hv ->]. simpl.
    apply merged_keys; [intros k [] | exact Hv].
  - destruct (set_truthy (invalid_options options)) eqn:E.
    + rewrite (set_options_invalid _ _ E) in Hset. now inversion Hset; subst.
    + apply invalid_options_valid in E.
      rewrite (set_options_valid _ _ E) in Hset. inversion Hset; subst. simpl.
      apply merged_keys; [| exact E]. intros k Hin. now rewrite <- IH.
  - unfold set_exe_path, bind, get_self, put_self in Hset.
    inversion Hset; subst. exact IH.
  - pose proof (execute_self stmt batch tc ae kwargs w) as Hs.
    rewrite Hex in Hs. simpl in Hs. now rewrite Hs.
Qed.

Lemma reachable_NoDup (r : MatlabRunner) :
  reachable r -> NoDup (dict_keys (_options r)).
Proof.
  intros Hr. rewrite (reachable_keys r Hr). apply NoDup_option_defaults.
Qed.

(** ** Tokens *)

Lemma _build_options_parameter_valid (k : string) (v : value) :
  dict_contains k option_defaults = true ->
  _build_options_parameter k v =
  if supported v then inr (spec_flag_token k v)
  else inl (ValueError ("Value for Key " ++ k
                        ++ " is not a number or a string")).
Proof.
  intros Hk. unfold _build_options_parameter. rewrite Hk. simpl.
  destruct v as [[|]| | | | |]; reflexivity.
Qed.

Lemma list_comprehension_well_typed (d : dict) :
  (forall k, In k (dict_keys d) -> dict_contains k option_defaults = true) ->
  well_typed d ->
  list_comprehension
    (fun kv => _build_options_parameter (fst kv) (snd kv)) d =
  inr (map (fun kv => spec_flag_token (fst kv) (snd kv)) d).
Proof.
  induction d as [|[k v] d IH]; intros Hk Hw; [reflexivity |].
  inversion Hw as [|? ? Hv Hw']; subst. simpl in Hv. simpl.
  rewrite _build_options_parameter_valid by (apply Hk; now left).
  rewrite Hv. simpl. rewrite IH; [reflexivity | | exact Hw'].
  intros k' Hin. apply Hk. now right.
Qed.

Lemma list_comprehension_ill_typed (d : dict) :
  (forall k, In k (dict_keys d) -> dict_contains k option_defaults = true) ->
  (exists kv, In kv d /\ supported (snd kv) = false) ->
  exists msg,
    list_comprehension
      (fun kv => _build_options_parameter (fst kv) (snd kv)) d =
    inl (ValueError msg).
Proof.
  induction d as [|[k v] d IH]; intros Hk (kv & Hin & Hbad); [destruct Hin |].
  simpl. rewrite _build_options_parameter_valid by (apply Hk; now left).
  destruct (supported v) eqn:Hv; simpl; [| eauto].
  destruct Hin as [<- | Hin]; [simpl in Hbad; congruence |].
  destruct IH as (msg & ->); [| eauto | simpl; eauto].
  intros k' Hin'. apply Hk. now right.
Qed.

Lemma not_none_map (g : string -> value -> option string) (d : dict) :
  not_none (map (fun kv => g (fst kv) (snd kv)) d) =
  flat_map (fun kv => match g (fst kv) (snd kv) with
                      | Some t => [t]
                      | None => []
                      end) d.
Proof.
  unfold not_none. induction d as [|kv d IH]; simpl; [reflexivity |].
  now rewrite IH.
Qed.

(** Walking the registry's names and looking each one up visits the
    items of a dict whose keys are distinct, in the dict's own order. *)
Lemma flat_map_keys (h : string -> value -> list string) (d : dict) :
  NoDup (dict_keys d) ->
  flat_map (fun k => match dict_get k d with
                     | Some v => h k v
                     | None => []
                     end) (dict_keys d) =
  flat_map (fun kv => h (fst kv) (snd kv)) d.
Proof.
  induction d as [|[k v] d IH]; intros Hnd; [reflexivity |].
  inversion Hnd as [|? ? Hnotin Hnd']; subst. simpl.
  rewrite String.eqb_refl. f_equal. rewrite <- (IH Hnd').
  clear IH Hnd Hnd'. revert Hnotin.
  generalize (dict_keys d) as l. intros l. induction l as [|k' l IHl]; intros Hnotin.
  - reflexivity.
  - simpl. destruct (String.eqb_spec k' k) as [->|ne].
    + elim Hnotin. now left.
    + rewrite IHl; [reflexivity |]. intros Hin. apply Hnotin. now right.
Qed.

Lemma flat_map_nil {A B : Type} (f : A -> list B) (l : list A) :
  (forall x, In x l -> f x = []) -> flat_map f l = [].
Proof.
  induction l as [|x l IH]; intros H; simpl; [reflexivity |].
  rewrite (H x) by now left. apply IH. intros y Hy. apply H. now right.
Qed.

Lemma dict_get_In (k : string) (v : value) (d : dict) :
  dict_get k d = Some v -> In (k, v) d.
Proof.
  induction d as [|[k' v'] d IH]; simpl; [discriminate |].
  destruct (String.eqb_spec k k') as [->|ne].
  - intros [= ->]. now left.
  - intros H. right. exact (IH H).
Qed.

(** The options string of a well-typed dict of registry flags. *)
Lemma options_string_of_well_typed (d : dict) :
  dict_keys d = dict_keys option_defaults ->
  well_typed d ->
  options_string_of d = inr (spec_options_string d).
Proof.
  intros Hk Hw. unfold options_string_of, spec_options_string.
  rewrite list_comprehension_well_typed; [| | exact Hw].
  - unfold rbind. rewrite not_none_map. rewrite <- Hk.
    rewrite (flat_map_keys (fun k v => match spec_flag_token k v with
                                       | Some t => [t]
                                       | None => []
                                       end)).
    + reflexivity.
    + rewrite Hk. apply NoDup_option_defaults.
  - intros k Hin. apply dict_contains_In. now rewrite <- Hk.
Qed.

(** ** Properties of the runner *)

(** C1. The runner at [/bin/tool] whose stored options are the registry
    with [nodesktop] true and [sd] set to [/work], executing the
    statement [run] with batch, try-catch and auto-exit all off, probes
    the executable and hands [subprocess.call] exactly the command
    [/bin/tool -nodesktop -sd "/work" -r "run"]: header, run-mode token,
    and the statement in double quotes. *)
Theorem C1_execute_example_command (w : world) (kwargs : dict) :
  self w = mkRunner "/bin/tool" example_stored ->
  isfile "/bin/tool" = true ->
  execute (SingleLine "run") false false false kwargs w =
  (rbind (subprocess_call example_command kwargs) (fun _ => inr tt),
   mkWorld (self w)
     (trace w ++ [ev_isfile "/bin/tool";
                  ev_subprocess_call example_command kwargs])%list).
Proof.
  intros Hs Hf. rewrite execute_eq, Hs. simpl _exe_path. rewrite Hf.
  reflexivity.
Qed.

Lemma dict_get_of_In (k : string) (v : value) (d : dict) :
  NoDup (dict_keys d) -> In (k, v) d -> dict_get k d = Some v.
Proof.
  induction d as [|[k' v'] d IH]; intros Hnd Hin; [destruct Hin |].
  inversion Hnd as [|? ? Hnotin Hnd']; subst. simpl.
  destruct Hin as [[= -> ->] | Hin].
  - now rewrite String.eqb_refl.
  - destruct (String.eqb_spec k k') as [->|ne]; [| exact (IH Hnd' Hin)].
    elim Hnotin. exact (in_map fst _ _ Hin).
Qed.

(** C2. On a runner a caller can hold, the stored keys are the registry's
    names in their declared order.  When the stored values are booleans,
    strings or numbers, [_build_options_string] returns the tokens of the
    flags whose value is not boolean-false, taken in that order (whatever
    the order in which the caller supplied them) and joined by one space;
    it returns the empty string when every stored value is boolean-false.
    A stored value of another type has no token, and the call raises. *)
Theorem C2_options_string_in_registry_order (w : world) :
  reachable (self w) ->
  dict_keys (_options (self w)) = dict_keys option_defaults /\
  (well_typed (_options (self w)) ->
   _build_options_string w =
     (inr (spec_options_string (_options (self w))), w)) /\
  ((forall k, In k (dict_keys option_defaults) ->
              dict_get k (_options (self w)) = Some (VBool false)) ->
   _build_options_string w = (inr EmptyString, w)) /\
  (forall k v,
      dict_get k (_options (self w)) = Some v -> supported v = false ->
      exists msg, _build_options_string w = (inl (ValueError msg), w)).
Proof.
  intros Hr. pose proof (reachable_keys _ Hr) as Hk.
  pose proof (reachable_NoDup _ Hr) as Hnd.
  assert (Hstr : well_typed (_options (self w)) ->
                 _build_options_string w =
                 (inr (spec_options_string (_options (self w))), w)).
  { intros Hw. rewrite _build_options_string_eq.
    now rewrite (options_string_of_well_typed _ Hk Hw). }
  split; [exact Hk | split; [exact Hstr | split]].
  - intros Hall. rewrite Hstr.
    + unfold spec_options_string.
      rewrite flat_map_nil; [reflexivity |].
      intros k Hin. now rewrite (Hall k Hin).
    + apply Forall_forall. intros [k v] Hin. simpl.
      pose proof (dict_get_of_In _ _ _ Hnd Hin) as Hget.
      rewrite Hall in Hget.
      * now injection Hget as <-.
      * rewrite <- Hk. exact (in_map fst _ _ Hin).
  - intros k v Hget Hbad. rewrite _build_options_string_eq.
    unfold options_string_of.
    destruct (list_comprehension_ill_typed (_options (self w))) as (msg & ->).
    + intros k' Hin. apply dict_contains_In. now rewrite <- Hk.
    + exists (k, v). split; [now apply dict_get_In | exact Hbad].
    + exists msg. reflexivity.
Qed.

(** C3. For a flag [k] of the registry, [_build_options_parameter]
    returns no token for boolean-false, the bare token [-k] for
    boolean-true, [-k] followed by the value in double quotes, verbatim,
    for a string, [-k] followed by the unquoted rendering for an integer
    or a float, and raises a ValueError whose message names [k] for a
    value of any other type. *)
Theorem C3_flag_token (k : string) :
  dict_contains k option_defaults = true ->
  _build_options_parameter k (VBool false) = inr None /\
  _build_options_parameter k (VBool true) = inr (Some ("-" ++ k)) /\
  (forall s, _build_options_parameter k (VStr s) =
             inr (Some ("-" ++ k ++ " " ++ dquote ++ s ++ dquote))) /\
  (forall n, _build_options_parameter k (VInt n) =
             inr (Some ("-" ++ k ++ " " ++ str_of_int n))) /\
  (forall x, _build_options_parameter k (VFloat x) =
             inr (Some ("-" ++ k ++ " " ++ format_float x))) /\
  (forall v, supported v = false ->
             exists msg, _build_options_parameter k v = inl (ValueError msg)
                         /\ contains k msg).
Proof.
  intros Hk. unfold _build_options_parameter. rewrite Hk. simpl.
  repeat split; try reflexivity.
  intros v Hv.
  exists ("Value for Key " ++ k ++ " is not a number or a string"). split.
  - destruct v; simpl in Hv; try discriminate; reflexivity.
  - exists "Value for Key ", " is not a number or a string". reflexivity.
Qed.

(** C4. With try-catch and auto-exit both on, [execute] wraps the
    statement in the try-catch template first and appends the exit
    instruction to the wrapped statement, outside the try-catch: for the
    statement [x] the quoted statement is exactly
    [try, x, catch err, fprintf('%s %s', err.identifier, err.message), end, exit]. *)
Theorem C4_try_catch_then_exit (w : world) (batch : bool) (kwargs : dict)
        (header : string) :
  isfile (_exe_path (self w)) = true ->
  _build_command_header w = (inr header, w) ->
  (forall s,
      let command :=
        command_line header batch
          ("try, " ++ s
           ++ ", catch err, fprintf('%s %s', err.identifier, err.message), end"
           ++ ", exit") in
      execute (SingleLine s) batch true true kwargs w =
      (rbind (subprocess_call command kwargs) (fun _ => inr tt),
       mkWorld (self w)
         (trace w ++ [ev_isfile (_exe_path (self w));
                      ev_subprocess_call command kwargs])%list)) /\
  (let command :=
     command_line header batch
       "try, x, catch err, fprintf('%s %s', err.identifier, err.message), end, exit" in
   execute (SingleLine "x") batch true true kwargs w =
   (rbind (subprocess_call command kwargs) (fun _ => inr tt),
    mkWorld (self w)
      (trace w ++ [ev_isfile (_exe_path (self w));
                   ev_subprocess_call command kwargs])%list)).
Proof.
  intros Hf Hh. rewrite _build_command_header_eq in Hh.
  assert (Hh' : header_of (self w) = inr header) by congruence.
  split; [intros s |]; cbv zeta; rewrite execute_eq, Hf, Hh'; cbv zeta;
    unfold final_statement, with_exit, wrapped_in_try_catch;
    rewrite ?append_assoc; reflexivity.
Qed.

(** C5. [set_options] merges: after two calls with valid mappings the
    value stored for a key is the one the second call supplied, else
    the one the first call supplied, else the one stored before, and
    for a runner under construction, which has nothing stored, else the
    registry's default.  So disjoint calls are both in force, a key
    supplied twice holds the second value, and a key that no call
    mentions keeps its value. *)
Theorem C5_set_options_is_a_cumulative_merge (w : world) (o1 o2 : dict) :
  valid_options o1 -> valid_options o2 ->
  NoDup (dict_keys o1) -> NoDup (dict_keys o2) ->
  (reachable (self w) ->
   exists w1 w2,
     set_options o1 w = (inr tt, w1) /\
     set_options o2 w1 = (inr tt, w2) /\
     forall k,
       dict_get k (_options (self w2)) =
       overriding o2 (overriding o1 (dict_get k (_options (self w))) k) k) /\
  (forall exe,
   exists w1 w2,
     __init__ exe o1 w = (inr tt, w1) /\
     set_options o2 w1 = (inr tt, w2) /\
     forall k,
       dict_get k (_options (self w2)) =
       overriding o2 (overriding o1 (dict_get k option_defaults) k) k).
Proof.
  intros Hv1 Hv2 Hn1 Hn2. split.
  - intros Hr.
    eexists. eexists. split; [apply (set_options_valid _ _ Hv1) |].
    split; [apply (set_options_valid _ _ Hv2) |].
    intros k. cbn [self _options].
    assert (Hr1 : reachable (self (mkWorld (mkRunner (_exe_path (self w))
                     (merged (_options (self w)) o1)) (trace w))))
      by (eapply reach_set_options; [exact Hr | apply (set_options_valid _ _ Hv1)]).
    rewrite (merged_get _ _ _ (reachable_NoDup _ Hr1) Hn2).
    rewrite (merged_get _ _ _ (reachable_NoDup _ Hr) Hn1).
    unfold overriding.
    destruct (dict_get k o2); [reflexivity |].
    destruct (dict_get k o1); [reflexivity |].
    destruct (dict_get k (_options (self w))) eqn:E; [reflexivity |].
    apply dict_get_None in E. rewrite (reachable_keys _ Hr) in E.
    apply dict_get_None in E. now rewrite E.
  - intros exe.
    assert (Hinit : __init__ exe o1 w =
                    (inr tt, mkWorld (mkRunner exe (merged [] o1)) (trace w))).
    { unfold __init__. unfold bind at 1. simpl.
      now rewrite (set_options_valid _ _ Hv1). }
    eexists. eexists. split; [exact Hinit |].
    split; [apply (set_options_valid _ _ Hv2) |].
    intros k. cbn [self _options].
    assert (Hr1 : reachable (self (mkWorld (mkRunner exe (merged [] o1)) (trace w))))
      by (eapply reach_init; exact Hinit).
    rewrite (merged_get _ _ _ (reachable_NoDup _ Hr1) Hn2).
    rewrite (merged_get [] _ _ (NoDup_nil _) Hn1).
    unfold overriding. cbn [dict_get].
    destruct (dict_get k o2); [reflexivity |].
    destruct (dict_get k o1); [reflexivity |].
    now destruct (dict_get k option_defaults).
Qed.

(** C6, as amended. When some supplied key is not in the registry,
    [set_options] raises a ValueError and changes nothing; the message
    is [Invalid options: ] followed by the list of the offending keys,
    every one of them and no other key, each written as Python writes a
    str. *)
Theorem C6_invalid_options_are_all_reported (options : dict) (w : world) :
  (exists k, offending options k) ->
  set_options options w =
    (inl (ValueError ("Invalid options: "
                      ++ list_repr (list_of_set (invalid_options options)))), w) /\
  (forall k, In k (list_of_set (invalid_options options)) <->
             offending options k) /\
  (forall k, offending options k ->
             contains (str_repr k)
               ("Invalid options: "
                ++ list_repr (list_of_set (invalid_options options)))).
Proof using list_of_set_perm.
  intros (k0 & Hoff0).
  assert (Hin : forall k, In k (list_of_set (invalid_options options)) <->
                          offending options k).
  { intros k. rewrite <- In_invalid_options. split; intros H.
    - eapply Permutation_in; [apply list_of_set_perm | exact H].
    - eapply Permutation_in; [apply Permutation_sym, list_of_set_perm | exact H]. }
  split; [| split; [exact Hin |]].
  - apply set_options_invalid. eapply invalid_options_offending; eauto.
  - intros k Hoff. apply contains_app_r. unfold list_repr.
    apply (contains_app_r _ "["), contains_app_l, contains_join, in_map.
    now apply Hin.
Qed.

(** C7. When some supplied key is not in the registry, [set_options]
    raises a ValueError and leaves the runner as it was: the stored
    options, and with them every valid key of the same call, are
    untouched. *)
Theorem C7_set_options_fails_without_effect (options : dict) (w : world) :
  (exists k, offending options k) ->
  exists msg,
    set_options options w = (inl (ValueError msg), w) /\
    _options (self (snd (set_options options w))) = _options (self w).
Proof.
  intros (k & Hoff). apply invalid_options_offending in Hoff.
  eexists. rewrite (set_options_invalid _ _ Hoff). split; reflexivity.
Qed.

Lemma set_options_trace (options : dict) (w : world) :
  trace (snd (set_options options w)) = trace w.
Proof.
  destruct (set_truthy (invalid_options options)) eqn:E.
  - now rewrite (set_options_invalid _ _ E).
  - apply invalid_options_valid in E. now rewrite (set_options_valid _ _ E).
Qed.

(** C8. When the stored path is not an existing file, [execute], with
    any statement and any flags, raises FileExistsError after the probe
    of the file system and hands nothing to [subprocess.call].  Every
    call of [execute] starts with that probe and makes no other; the
    constructor, [set_options] and [set_exe_path] make none. *)
Theorem C8_executable_is_checked_first :
  (forall w statement batch try_catch auto_exit kwargs,
      isfile (_exe_path (self w)) = false ->
      exists msg,
        execute statement batch try_catch auto_exit kwargs w =
        (inl (FileExistsError msg),
         mkWorld (self w) (trace w ++ [ev_isfile (_exe_path (self w))])%list)) /\
  (forall w statement batch try_catch auto_exit kwargs,
      exists r rest,
        execute statement batch try_catch auto_exit kwargs w =
        (r, mkWorld (self w)
              (trace w ++ ev_isfile (_exe_path (self w)) :: rest)%list) /\
        forall p, ~ In (ev_isfile p) rest) /\
  (forall exe options w, trace (snd (__init__ exe options w)) = trace w) /\
  (forall options w, trace (snd (set_options options w)) = trace w) /\
  (forall exe w, trace (snd (set_exe_path exe w)) = trace w).
Proof.
  split; [| split; [| split; [| split]]].
  - intros w statement batch tc ae kwargs Hf. rewrite execute_eq, Hf.
    eexists. reflexivity.
  - intros w statement batch tc ae kwargs. rewrite execute_eq.
    destruct (isfile (_exe_path (self w)));
      [destruct (header_of (self w)) as [e | header] |].
    + exists (inl e), []. split; [reflexivity | intros p []].
    + eexists. eexists. split; [reflexivity |].
      intros p [H | []]. discriminate.
    + eexists. exists []. split; [reflexivity | intros p []].
  - intros exe options w. unfold __init__. unfold bind at 1. simpl.
    now rewrite set_options_trace.
  - apply set_options_trace.
  - reflexivity.
Qed.

(** C9. A statement given as a list of lines is joined with [, ] before
    anything else is done to it: [execute] on the list is [execute] on
    the joined line, whatever the flags.  Without wrapping, the list
    [a=1], [b] is quoted as [a=1, b], and a single line is quoted as it
    is. *)
Theorem C9_lines_are_joined_first (w : world) (kwargs : dict)
        (header : string) :
  isfile (_exe_path (self w)) = true ->
  _build_command_header w = (inr header, w) ->
  (forall lines batch try_catch auto_exit,
      execute (MultiLine lines) batch try_catch auto_exit kwargs w =
      execute (SingleLine (join ", " lines)) batch try_catch auto_exit kwargs w) /\
  (let command := header ++ " -r " ++ dquote ++ "a=1, b" ++ dquote in
   execute (MultiLine ["a=1"; "b"]) false false false kwargs w =
   (rbind (subprocess_call command kwargs) (fun _ => inr tt),
    mkWorld (self w)
      (trace w ++ [ev_isfile (_exe_path (self w));
                   ev_subprocess_call command kwargs])%list)) /\
  (forall s batch,
      let command := command_line header batch s in
      execute (SingleLine s) batch false false kwargs w =
      (rbind (subprocess_call command kwargs) (fun _ => inr tt),
       mkWorld (self w)
         (trace w ++ [ev_isfile (_exe_path (self w));
                      ev_subprocess_call command kwargs])%list)).
Proof.
  intros Hf Hh. rewrite _build_command_header_eq in Hh.
  assert (Hh' : header_of (self w) = inr header) by congruence.
  split; [| split].
  - intros lines batch tc ae. now rewrite !execute_eq.
  - cbv zeta. rewrite execute_eq, Hf, Hh'. reflexivity.
  - intros s batch. cbv zeta. rewrite execute_eq, Hf, Hh'. reflexivity.
Qed.

(** C10. The constructor called without options stores the registry
    itself, every flag boolean-false.  On every runner a caller can
    hold, so after construction and after every call of [set_options],
    the stored keys are exactly the registry's names in their declared
    order.  [set_options] looks at keys only: a registry flag can be
    given a value of any type, the value is stored, and when its type
    is not bool, str, int or float it is [_build_options_string] that
    raises a ValueError. *)
Theorem C10_stored_keys_are_the_registry :
  (forall exe w,
      __init__ exe [] w =
      (inr tt, mkWorld (mkRunner exe option_defaults) (trace w))) /\
  (forall r, reachable r ->
             dict_keys (_options r) = dict_keys option_defaults) /\
  (forall w k v,
      reachable (self w) -> In k (dict_keys option_defaults) ->
      exists w',
        set_options [(k, v)] w = (inr tt, w') /\
        dict_get k (_options (self w')) = Some v /\
        (supported v = false ->
         exists msg, _build_options_string w' = (inl (ValueError msg), w'))).
Proof.
  split; [| split].
  - intros exe w. reflexivity.
  - apply reachable_keys.
  - intros w k v Hr Hk.
    assert (Hv : valid_options [(k, v)]).
    { intros k' [<- | []]. now apply dict_contains_In. }
    assert (Hn : NoDup (dict_keys [(k, v)])).
    { simpl. constructor; [intros [] | constructor]. }
    pose proof (set_options_valid _ w Hv) as Hset.
    eexists. split; [exact Hset |].
    assert (Hr' : reachable (self (mkWorld (mkRunner (_exe_path (self w))
                     (merged (_options (self w)) [(k, v)])) (trace w))))
      by (eapply reach_set_options; [exact Hr | exact Hset]).
    assert (Hget : dict_get k (merged (_options (self w)) [(k, v)]) = Some v).
    { rewrite (merged_get _ _ _ (reachable_NoDup _ Hr) Hn).
      cbn [dict_get]. now rewrite String.eqb_refl. }
    split; [exact Hget |].
    intros Hbad. rewrite _build_options_string_eq. cbn [self _options].
    unfold options_string_of.
    destruct (list_comprehension_ill_typed
                (merged (_options (self w)) [(k, v)])) as (msg & ->).
    + intros k' Hin. apply dict_contains_In.
      now rewrite <- (reachable_keys _ Hr').
    + exists (k, v). split; [now apply dict_get_In | exact Hbad].
    + exists msg. reflexivity.
Qed.

(** ** Further properties of the runner *)

(** Two dicts with the same keys in the same order and the same value
    under every key are the same dict. *)
Lemma dict_ext (d d' : dict) :
  dict_keys d = dict_keys d' -> NoDup (dict_keys d) ->
  (forall k, dict_get k d = dict_get k d') -> d = d'.
Proof.
  revert d'. induction d as [|[k v] d IH]; intros [|[k' v'] d'] Hk Hnd Hg;
    try discriminate; [reflexivity |].
  simpl in Hk. injection Hk as -> Hk.
  inversion Hnd as [|? ? Hnotin Hnd']; subst.
  pose proof (Hg k') as Hh. simpl in Hh. rewrite String.eqb_refl in Hh.
  injection Hh as ->. f_equal. apply IH; [exact Hk | exact Hnd' |].
  intros k0. pose proof (Hg k0) as Hgk. simpl in Hgk.
  destruct (String.eqb_spec k0 k') as [e|ne]; [subst k0 | exact Hgk].
  transitivity (@None value).
  - now apply dict_get_None.
  - symmetry. apply dict_get_None. now rewrite <- Hk.
Qed.

(** Updating the registry with a dict that has the registry's keys gives
    that dict back. *)
Lemma dict_update_defaults (stored : dict) :
  dict_keys stored = dict_keys option_defaults ->
  dict_update option_defaults stored = stored.
Proof.
  intros Hk.
  assert (Hnd : NoDup (dict_keys stored))
    by (rewrite Hk; apply NoDup_option_defaults).
  assert (Hkeys : dict_keys (dict_update option_defaults stored) =
                  dict_keys option_defaults).
  { apply dict_keys_update_present. intros k Hin. now rewrite <- Hk. }
  apply dict_ext.
  - now rewrite Hkeys.
  - rewrite Hkeys. apply NoDup_option_defaults.
  - intros k. rewrite (dict_get_update _ _ _ Hnd).
    destruct (dict_get k stored) eqn:E; [reflexivity |].
    apply dict_get_None in E. rewrite Hk in E. now apply dict_get_None.
Qed.

Lemma world_eta (w : world) :
  mkWorld (mkRunner (_exe_path (self w)) (_options (self w))) (trace w) = w.
Proof. now destruct w as [[p o] t]. Qed.

Lemma valid_options_nil : valid_options [].
Proof. intros k []. Qed.

(** X5. On a runner a caller can hold, the registry part of the merge is
    redundant: a valid call of [set_options] stores the stored dict
    updated with the supplied one, in place.  A call without options
    changes nothing. *)
Theorem set_options_updates_the_stored_dict (w : world) (options : dict) :
  reachable (self w) -> valid_options options ->
  set_options options w =
    (inr tt, mkWorld (mkRunner (_exe_path (self w))
                               (dict_update (_options (self w)) options))
                     (trace w)) /\
  set_options [] w = (inr tt, w).
Proof.
  intros Hr Hv. pose proof (reachable_keys _ Hr) as Hk. split.
  - rewrite (set_options_valid _ _ Hv), merged_eq.
    now rewrite (dict_update_defaults _ Hk).
  - rewrite (set_options_valid _ _ valid_options_nil), merged_eq.
    rewrite (dict_update_defaults _ Hk). unfold dict_update. simpl.
    now rewrite world_eta.
Qed.

(** The value of a key does not depend on where its item stands. *)
Lemma dict_get_Permutation (k : string) (o o' : dict) :
  NoDup (dict_keys o) -> Permutation o o' -> dict_get k o = dict_get k o'.
Proof.
  intros Hnd Hp.
  assert (Hnd' : NoDup (dict_keys o'))
    by (eapply Permutation_NoDup; [apply Permutation_map, Hp | exact Hnd]).
  destruct (dict_get k o) as [v|] eqn:E.
  - symmetry. apply dict_get_of_In; [exact Hnd' |].
    eapply Permutation_in; [exact Hp | now apply dict_get_In].
  - symmetry. apply dict_get_None. apply dict_get_None in E. intros Hin.
    apply E. eapply Permutation_in; [| exact Hin].
    apply Permutation_map, Permutation_sym, Hp.
Qed.

Lemma valid_options_Permutation (o o' : dict) :
  Permutation o o' -> valid_options o -> valid_options o'.
Proof.
  intros Hp Hv k Hin. apply Hv. eapply Permutation_in; [| exact Hin].
  apply Permutation_map, Permutation_sym, Hp.
Qed.

Lemma merged_Permutation (stored o o' : dict) :
  (forall k, In k (dict_keys stored) -> In k (dict_keys option_defaults)) ->
  NoDup (dict_keys stored) ->
  valid_options o -> NoDup (dict_keys o) -> Permutation o o' ->
  merged stored o = merged stored o'.
Proof.
  intros Hs Hns Hv Hn Hp.
  pose proof (valid_options_Permutation _ _ Hp Hv) as Hv'.
  assert (Hn' : NoDup (dict_keys o'))
    by (eapply Permutation_NoDup; [apply Permutation_map, Hp | exact Hn]).
  apply dict_ext.
  - now rewrite !merged_keys.
  - rewrite merged_keys by assumption. apply NoDup_option_defaults.
  - intros k. rewrite !merged_get by assumption.
    now rewrite (dict_get_Permutation k _ _ Hn Hp).
Qed.

(** X7. The order in which the keyword arguments are written does not
    matter: two valid mappings with the same items leave [set_options],
    and the constructor, with the same result and the same runner. *)
Theorem set_options_ignores_keyword_order (w : world) (o o' : dict) :
  valid_options o -> NoDup (dict_keys o) -> Permutation o o' ->
  (reachable (self w) -> set_options o w = set_options o' w) /\
  (forall exe, __init__ exe o w = __init__ exe o' w).
Proof.
  intros Hv Hn Hp.
  pose proof (valid_options_Permutation _ _ Hp Hv) as Hv'. split.
  - intros Hr. rewrite (set_options_valid _ _ Hv), (set_options_valid _ _ Hv').
    rewrite (merged_Permutation _ o o'); try assumption; [reflexivity | |].
    + intros k Hin. now rewrite <- (reachable_keys _ Hr).
    + now apply reachable_NoDup.
  - intros exe. unfold __init__, bind, put_self.
    rewrite (set_options_valid _ _ Hv), (set_options_valid _ _ Hv').
    cbn [self _exe_path _options trace].
    rewrite (merged_Permutation [] o o'); try assumption; [reflexivity | |].
    + intros k [].
    + constructor.
Qed.

(** X6. Calling [set_options] twice with the same valid mapping is calling it
    once. *)
Theorem set_options_idempotent (w : world) (options : dict) :
  reachable (self w) -> valid_options options -> NoDup (dict_keys options) ->
  (set_options options ;;; set_options options) w = set_options options w.
Proof.
  intros Hr Hv Hn. unfold bind.
  pose proof (set_options_valid _ w Hv) as Hset. rewrite Hset.
  assert (Hr1 : reachable (self (mkWorld (mkRunner (_exe_path (self w))
                     (merged (_options (self w)) options)) (trace w))))
    by (eapply reach_set_options; [exact Hr | exact Hset]).
  rewrite (set_options_valid _ _ Hv). cbn [self _exe_path _options trace].
  f_equal. f_equal. f_equal.
  pose proof (reachable_keys _ Hr) as Hk.
  pose proof (reachable_keys _ Hr1) as Hk1. cbn [self _options] in Hk1.
  apply dict_ext.
  - rewrite merged_keys; [now symmetry | | exact Hv].
    intros k Hin. now rewrite <- Hk1.
  - rewrite merged_keys; [apply NoDup_option_defaults | | exact Hv].
    intros k Hin. now rewrite <- Hk1.
  - intros k.
    pose proof (reachable_NoDup _ Hr1) as Hn1. cbn [self _options] in Hn1.
    rewrite (merged_get _ _ k Hn1 Hn).
    rewrite (merged_get _ _ k (reachable_NoDup _ Hr) Hn).
    destruct (dict_get k options); [reflexivity |].
    destruct (dict_get k (_options (self w))); [reflexivity |].
    now destruct (dict_get k option_defaults).
Qed.

(** X9. Constructing a runner with valid options is constructing it without
    options and calling [set_options] on it. *)
Theorem constructor_is_bare_constructor_then_set_options
        (exe : string) (options : dict) (w : world) :
  valid_options options ->
  __init__ exe options w = (__init__ exe [] ;;; set_options options) w.
Proof.
  intros Hv. unfold bind at 1.
  change (__init__ exe [] w)
    with (@inr exception unit tt, mkWorld (mkRunner exe option_defaults) (trace w)).
  cbv iota. rewrite (set_options_valid _ _ Hv).
  unfold __init__. unfold bind at 1. cbn [put_self].
  rewrite (set_options_valid _ _ Hv). cbn [self _exe_path _options trace].
  now rewrite !merged_eq.
Qed.

(** X1. The key is checked before the value: for a key that is not a flag of
    the registry [_build_options_parameter] raises whatever the value,
    boolean-false included, and the message names the key and every flag
    of the registry. *)
Theorem _build_options_parameter_rejects_unknown_key (k : string) (v : value) :
  dict_contains k option_defaults = false ->
  exists msg,
    _build_options_parameter k v = inl (ValueError msg) /\
    contains k msg /\
    forall flag, In flag (dict_keys option_defaults) ->
                 contains (str_repr flag) msg.
Proof.
  intros Hk. unfold _build_options_parameter. rewrite Hk. cbn [negb].
  eexists. split; [reflexivity | split].
  - apply (contains_app_r _ "Key "), contains_app_l, contains_refl.
  - intros flag Hin.
    apply (contains_app_r _ "Key "), contains_app_r, contains_app_r, contains_app_r.
    change (tuple_repr (dict_keys option_defaults))
      with ("(" ++ join ", " (map str_repr (dict_keys option_defaults)) ++ ")").
    apply (contains_app_r _ "("), contains_app_l, contains_join, in_map, Hin.
Qed.

(** Where the list comprehension of [_build_options_string] stops: at the
    first item whose value has no token. *)
Lemma list_comprehension_first_failure (d : dict) (e : exception) :
  (forall k, In k (dict_keys d) -> dict_contains k option_defaults = true) ->
  list_comprehension
    (fun kv => _build_options_parameter (fst kv) (snd kv)) d = inl e ->
  exists pre k v post,
    d = (pre ++ (k, v) :: post)%list /\
    well_typed pre /\ supported v = false /\
    e = ValueError ("Value for Key " ++ k ++ " is not a number or a string").
Proof.
  induction d as [|[k v] d IH]; intros Hk He; [discriminate He |].
  simpl in He.
  rewrite _build_options_parameter_valid in He by (apply Hk; now left).
  destruct (supported v) eqn:Hv; simpl in He.
  - destruct (list_comprehension _ d) as [e' | ys] eqn:E; simpl in He;
      [| discriminate He].
    injection He as <-.
    destruct (IH (fun k' Hin => Hk k' (or_intror Hin)) eq_refl)
      as (pre & k0 & v0 & post & -> & Hpre & Hv0 & He').
    exists ((k, v) :: pre), k0, v0, post.
    split; [reflexivity | split; [| split; assumption]].
    constructor; assumption.
  - injection He as <-. exists [], k, v, d.
    split; [reflexivity | split; [constructor | split; [exact Hv | reflexivity]]].
Qed.

(** X2. On a runner a caller can hold, [_build_options_string] never raises
    the unknown-flag error: when it raises, a stored value has a type
    that has no token, the items before it in the stored order all have
    one, and the message names that flag.  The runner is left alone. *)
Theorem _build_options_string_raises_on_first_unsupported_value
        (w w' : world) (e : exception) :
  reachable (self w) ->
  _build_options_string w = (inl e, w') ->
  w' = w /\
  exists pre k v post,
    _options (self w) = (pre ++ (k, v) :: post)%list /\
    well_typed pre /\
    dict_get k (_options (self w)) = Some v /\
    supported v = false /\
    e = ValueError ("Value for Key " ++ k ++ " is not a number or a string").
Proof.
  intros Hr H. rewrite _build_options_string_eq in H.
  injection H as He <-. split; [reflexivity |].
  unfold options_string_of in He.
  destruct (list_comprehension _ (_options (self w))) as [e' | ys] eqn:E;
    simpl in He; [| discriminate He].
  injection He as <-.
  apply list_comprehension_first_failure in E.
  - destruct E as (pre & k & v & post & Hd & Hpre & Hv & He).
    exists pre, k, v, post. repeat (split; [assumption |]).
    split; [| split; assumption].
    apply dict_get_of_In; [now apply reachable_NoDup |].
    rewrite Hd. apply in_or_app. right. now left.
  - intros k Hin. apply dict_contains_In. now rewrite <- (reachable_keys _ Hr).
Qed.

(** X11. When a stored value has a type that has no token, [execute] raises
    after the probe of the file system and hands nothing to
    [subprocess.call]. *)
Theorem execute_raises_before_the_call (w : world) (k : string) (v : value)
        statement batch try_catch auto_exit kwargs :
  reachable (self w) ->
  isfile (_exe_path (self w)) = true ->
  dict_get k (_options (self w)) = Some v -> supported v = false ->
  exists msg,
    execute statement batch try_catch auto_exit kwargs w =
    (inl (ValueError msg),
     mkWorld (self w) (trace w ++ [ev_isfile (_exe_path (self w))])%list).
Proof.
  intros Hr Hf Hget Hbad. rewrite execute_eq, Hf.
  unfold header_of, options_string_of.
  destruct (list_comprehension_ill_typed (_options (self w))) as (msg & ->).
  - intros k' Hin. apply dict_contains_In. now rewrite <- (reachable_keys _ Hr).
  - exists (k, v). split; [now apply dict_get_In | exact Hbad].
  - exists msg. reflexivity.
Qed.

(** X12. [execute] hands [subprocess.call] one command, with the keyword
    arguments it was given, and drops the exit status: whatever the
    status of the child, [execute] returns [None]; what [subprocess.call]
    raises, [execute] raises. *)
Theorem execute_drops_the_exit_status (w : world) (header : string)
        statement batch try_catch auto_exit kwargs :
  isfile (_exe_path (self w)) = true ->
  _build_command_header w = (inr header, w) ->
  exists command,
    snd (execute statement batch try_catch auto_exit kwargs w) =
      mkWorld (self w)
        (trace w ++ [ev_isfile (_exe_path (self w));
                     ev_subprocess_call command kwargs])%list /\
    (forall status, subprocess_call command kwargs = inr status ->
       fst (execute statement batch try_catch auto_exit kwargs w) = inr tt) /\
    (forall e, subprocess_call command kwargs = inl e ->
       fst (execute statement batch try_catch auto_exit kwargs w) = inl e).
Proof.
  intros Hf Hh. rewrite _build_command_header_eq in Hh.
  assert (Hh' : header_of (self w) = inr header) by congruence.
  rewrite execute_eq, Hf, Hh'. cbv zeta.
  eexists. split; [reflexivity | split].
  - intros status Hs. cbn [fst]. now rewrite Hs.
  - intros e He. cbn [fst]. now rewrite He.
Qed.

(** X13. The statement is never escaped: whatever the flags, the command is a
    fixed text, the statement as it was given, and a fixed text; a double
    quote or a brace in the statement reaches the command line as it is. *)
Theorem execute_embeds_the_statement_verbatim (w : world) (header : string)
        batch try_catch auto_exit kwargs :
  isfile (_exe_path (self w)) = true ->
  _build_command_header w = (inr header, w) ->
  exists before after,
    forall s,
      execute (SingleLine s) batch try_catch auto_exit kwargs w =
      (rbind (subprocess_call (before ++ s ++ after) kwargs) (fun _ => inr tt),
       mkWorld (self w)
         (trace w ++ [ev_isfile (_exe_path (self w));
                      ev_subprocess_call (before ++ s ++ after) kwargs])%list).
Proof.
  intros Hf Hh. rewrite _build_command_header_eq in Hh.
  assert (Hh' : header_of (self w) = inr header) by congruence.
  exists (header ++ " " ++ (if batch then "-batch" else "-r") ++ " " ++ dquote
          ++ (if try_catch then "try, " else EmptyString)).
  exists ((if try_catch
           then ", catch err, fprintf('%s %s', err.identifier, err.message), end"
           else EmptyString)
          ++ (if auto_exit then ", exit" else EmptyString) ++ dquote).
  intros s. rewrite execute_eq, Hf, Hh'. cbv zeta.
  unfold command_line, final_statement, with_exit, wrapped_in_try_catch.
  destruct batch, try_catch, auto_exit; rewrite ?append_assoc; reflexivity.
Qed.

(** X14. With one wrapper only: try-catch alone wraps the statement and adds
    no exit, auto-exit alone appends the exit to the bare statement; the
    batch flag chooses between the tokens [-batch] and [-r] and changes
    nothing else. *)
Theorem execute_with_one_wrapper (w : world) (header : string)
        (s : string) (batch : bool) kwargs :
  isfile (_exe_path (self w)) = true ->
  _build_command_header w = (inr header, w) ->
  (let command :=
     header ++ (if batch then " -batch " else " -r ") ++ dquote
     ++ "try, " ++ s
     ++ ", catch err, fprintf('%s %s', err.identifier, err.message), end"
     ++ dquote in
   execute (SingleLine s) batch true false kwargs w =
   (rbind (subprocess_call command kwargs) (fun _ => inr tt),
    mkWorld (self w)
      (trace w ++ [ev_isfile (_exe_path (self w));
                   ev_subprocess_call command kwargs])%list)) /\
  (let command :=
     header ++ (if batch then " -batch " else " -r ") ++ dquote
     ++ s ++ ", exit" ++ dquote in
   execute (SingleLine s) batch false true kwargs w =
   (rbind (subprocess_call command kwargs) (fun _ => inr tt),
    mkWorld (self w)
      (trace w ++ [ev_isfile (_exe_path (self w));
                   ev_subprocess_call command kwargs])%list)).
Proof.
  intros Hf Hh. rewrite _build_command_header_eq in Hh.
  assert (Hh' : header_of (self w) = inr header) by congruence.
  split; cbv zeta; rewrite execute_eq, Hf, Hh'; cbv zeta;
    unfold command_line, final_statement, with_exit, wrapped_in_try_catch;
    destruct batch; rewrite ?append_assoc; reflexivity.
Qed.

Lemma options_string_of_all_false (stored : dict) :
  dict_keys stored = dict_keys option_defaults ->
  (forall k, In k (dict_keys option_defaults) ->
             dict_get k stored = Some (VBool false)) ->
  options_string_of stored = inr EmptyString.
Proof.
  intros Hk Hall.
  assert (Hnd : NoDup (dict_keys stored))
    by (rewrite Hk; apply NoDup_option_defaults).
  rewrite options_string_of_well_typed; [| exact Hk |].
  - unfold spec_options_string. rewrite flat_map_nil; [reflexivity |].
    intros k Hin. now rewrite (Hall k Hin).
  - apply Forall_forall. intros [k v] Hin. simpl.
    pose proof (dict_get_of_In _ _ _ Hnd Hin) as Hget.
    rewrite Hall in Hget.
    + now injection Hget as <-.
    + rewrite <- Hk. exact (in_map fst _ _ Hin).
Qed.

(** X3. With every flag boolean-false the header is the path followed by a
    space, so the command has two spaces between the path and the
    run-mode token. *)
Theorem header_of_a_runner_without_flags (w : world) :
  reachable (self w) ->
  (forall k, In k (dict_keys option_defaults) ->
             dict_get k (_options (self w)) = Some (VBool false)) ->
  _build_command_header w = (inr (_exe_path (self w) ++ " "), w) /\
  (isfile (_exe_path (self w)) = true ->
   forall s kwargs,
     execute (SingleLine s) false false false kwargs w =
     (rbind (subprocess_call
               (_exe_path (self w) ++ "  -r " ++ dquote ++ s ++ dquote) kwargs)
            (fun _ => inr tt),
      mkWorld (self w)
        (trace w ++ [ev_isfile (_exe_path (self w));
                     ev_subprocess_call
                       (_exe_path (self w) ++ "  -r " ++ dquote ++ s ++ dquote)
                       kwargs])%list)).
Proof.
  intros Hr Hall.
  assert (Hh : header_of (self w) = inr (_exe_path (self w) ++ " ")).
  { unfold header_of.
    now rewrite (options_string_of_all_false _ (reachable_keys _ Hr) Hall). }
  split.
  - now rewrite _build_command_header_eq, Hh.
  - intros Hf s kwargs. rewrite execute_eq, Hf, Hh. cbv zeta.
    unfold command_line, final_statement. rewrite !append_assoc. reflexivity.
Qed.

(** X4. [set_exe_path] stores the path without looking at the file system
    and keeps the options; the next [execute] probes the new path and no
    other, fails on it when it is not a file, with a message that names
    it, and otherwise starts the command with it. *)
Theorem set_exe_path_takes_effect_at_the_next_execute
        (w : world) (p : string) statement batch try_catch auto_exit kwargs :
  set_exe_path p w =
    (inr tt, mkWorld (mkRunner p (_options (self w))) (trace w)) /\
  (isfile p = false ->
   exists msg,
     (set_exe_path p ;;; execute statement batch try_catch auto_exit kwargs) w =
     (inl (FileExistsError msg),
      mkWorld (mkRunner p (_options (self w))) (trace w ++ [ev_isfile p])%list) /\
     contains p msg) /\
  (forall opts,
     isfile p = true ->
     _build_options_string w = (inr opts, w) ->
     let command :=
       command_line (p ++ " " ++ opts) batch
         (final_statement statement try_catch auto_exit) in
     (set_exe_path p ;;; execute statement batch try_catch auto_exit kwargs) w =
     (rbind (subprocess_call command kwargs) (fun _ => inr tt),
      mkWorld (mkRunner p (_options (self w)))
        (trace w ++ [ev_isfile p; ev_subprocess_call command kwargs])%list)).
Proof.
  split; [reflexivity | split].
  - intros Hf. unfold bind at 1.
    change (set_exe_path p w)
      with (@inr exception unit tt,
            mkWorld (mkRunner p (_options (self w))) (trace w)).
    cbv iota. rewrite execute_eq. cbn [self _exe_path trace]. rewrite Hf.
    eexists. split; [reflexivity |].
    apply (contains_app_r _ "MATLAB executable at "), contains_app_l, contains_refl.
  - intros opts Hf Ho. cbv zeta. unfold bind at 1.
    change (set_exe_path p w)
      with (@inr exception unit tt,
            mkWorld (mkRunner p (_options (self w))) (trace w)).
    cbv iota. rewrite execute_eq. cbn [self _exe_path trace]. rewrite Hf.
    rewrite _build_options_string_eq in Ho.
    assert (Ho' : options_string_of (_options (self w)) = inr opts) by congruence.
    unfold header_of. cbn [_options _exe_path]. rewrite Ho'. reflexivity.
Qed.

(** X15. The script [control.py], on every file system and with every child
    process: when its path is a file, it hands [subprocess.call] one
    command, the path (unquoted, with its space), the three flags in the
    registry's order, the token [-r] and the two lines joined, with the
    exit appended; when it is not, it raises after the probe.  Either way
    the runner holds the three flags. *)
Theorem control_runs_one_command (w : world) :
  control w =
  if isfile matlab_exe_path then
    (rbind (subprocess_call control_command []) (fun _ => inr tt),
     mkWorld (mkRunner matlab_exe_path control_stored)
       (trace w ++ [ev_isfile matlab_exe_path;
                    ev_subprocess_call control_command []])%list)
  else
    (inl (FileExistsError ("MATLAB executable at " ++ matlab_exe_path
                           ++ " does not exist")),
     mkWorld (mkRunner matlab_exe_path control_stored)
       (trace w ++ [ev_isfile matlab_exe_path])%list).
Proof.
  unfold control. unfold bind at 1.
  change (__init__ matlab_exe_path [] w)
    with (@inr exception unit tt,
          mkWorld (mkRunner matlab_exe_path option_defaults) (trace w)).
  cbv iota. unfold bind at 1.
  rewrite set_options_valid
    by (intros k [<- | [<- | [<- | []]]]; reflexivity).
  cbn [self _exe_path _options trace].
  change (merged option_defaults
            [("nodesktop", VBool true); ("nosplash", VBool true);
             ("logfile", VStr "subprocess_log.txt")]) with control_stored.
  rewrite execute_eq. cbn [self _exe_path trace].
  destruct (isfile matlab_exe_path); reflexivity.
Qed.

(** X10. The constructor validates its keyword arguments as [set_options]
    does: with a key that is not in the registry it raises the same
    ValueError, before anything is stored under a flag and without a look
    at the file system. *)
Theorem constructor_rejects_unknown_keys
        (exe : string) (options : dict) (w : world) :
  (exists k, offending options k) ->
  __init__ exe options w =
  (inl (ValueError ("Invalid options: "
                    ++ list_repr (list_of_set (invalid_options options)))),
   mkWorld (mkRunner exe []) (trace w)).
Proof.
  intros (k & Hoff). apply invalid_options_offending in Hoff.
  unfold __init__. unfold bind at 1. cbn [put_self].
  now rewrite (set_options_invalid _ _ Hoff).
Qed.

(** X8. Setting a flag and then setting it back to the value it had restores
    the runner exactly: the stored dict, its order included, is the one
    before the two calls. *)
Theorem set_options_round_trip (w : world) (k : string) (old v : value) :
  reachable (self w) ->
  dict_get k (_options (self w)) = Some old ->
  (set_options [(k, v)] ;;; set_options [(k, old)]) w = (inr tt, w).
Proof.
  intros Hr Hold.
  pose proof (reachable_keys _ Hr) as Hk.
  assert (Hin : In k (dict_keys option_defaults)).
  { rewrite <- Hk. exact (in_map fst _ _ (dict_get_In _ _ _ Hold)). }
  assert (Hv : forall x, valid_options [(k, x)]).
  { intros x k' [<- | []]. now apply dict_contains_In. }
  assert (Hn : forall x, NoDup (dict_keys [(k, x)])).
  { intros x. simpl. constructor; [intros [] | constructor]. }
  unfold bind. pose proof (set_options_valid _ w (Hv v)) as Hset. rewrite Hset.
  assert (Hr1 : reachable (self (mkWorld (mkRunner (_exe_path (self w))
                     (merged (_options (self w)) [(k, v)])) (trace w))))
    by (eapply reach_set_options; [exact Hr | exact Hset]).
  pose proof (reachable_keys _ Hr1) as Hk1. cbn [self _options] in Hk1.
  pose proof (reachable_NoDup _ Hr1) as Hn1. cbn [self _options] in Hn1.
  rewrite (set_options_valid _ _ (Hv old)). cbn [self _exe_path _options trace].
  transitivity (@inr exception unit tt,
                mkWorld (mkRunner (_exe_path (self w)) (_options (self w)))
                        (trace w)); [| now rewrite world_eta].
  f_equal. f_equal. f_equal.
  apply dict_ext.
  - rewrite merged_keys; [now symmetry | | exact (Hv old)].
    intros k' Hin'. now rewrite <- Hk1.
  - rewrite merged_keys; [apply NoDup_option_defaults | | exact (Hv old)].
    intros k' Hin'. now rewrite <- Hk1.
  - intros k0. rewrite (merged_get _ _ k0 Hn1 (Hn old)).
    rewrite (merged_get _ _ k0 (reachable_NoDup _ Hr) (Hn v)).
    cbn [dict_get]. destruct (String.eqb_spec k0 k) as [e | ne].
    + subst k0. now rewrite Hold.
    + destruct (dict_get k0 (_options (self w))) eqn:E; [reflexivity |].
      apply dict_get_None in E. rewrite Hk in E.
      apply dict_get_None in E. now rewrite E.
Qed.

End Runner.

(** * Closed examples

    The properties above are stated for every rendering of floats, every
    order of iteration, every file system and every child process.  The
    runs below instantiate them on the sample parameters. *)

Lemma example_stored_eq :
  example_stored =
  [ ("nodesktop", VBool true); ("noFigureWindows", VBool false);
    ("nosplash", VBool false); ("sd", VStr "/work");
    ("useStartupFolderPref", VBool false); ("logfile", VBool false);
    ("jbd", VBool false); ("singleCompThread", VBool false);
    ("nouserjavapath", VBool false); ("softwareopengl", VBool false);
    ("nosoftwareopengl", VBool false); ("automation", VBool false);
    ("regserver", VBool false); ("unregserver", VBool false);
    ("wait", VBool false) ].
Proof. reflexivity. Qed.

(** The runner of the worked example is the one the constructor builds
    from the two keyword arguments, in whichever order they are given. *)
Lemma example_world_constructed :
  __init__ insertion_order "/bin/tool"
    [("sd", VStr "/work"); ("nodesktop", VBool true)]
    (mkWorld (mkRunner EmptyString []) []) = (inr tt, example_world).
Proof. reflexivity. Qed.

Lemma example_world_reachable :
  reachable sample_format_float insertion_order every_path_is_a_file
    child_exits_0 (self example_world).
Proof.
  exact (reach_init _ _ _ _ _ _ _ _ example_world_constructed).
Qed.

Lemma example_world_well_typed : well_typed (_options (self example_world)).
Proof. repeat constructor. Qed.

(** C1 on the worked example: the command reaches [subprocess.call]. *)
Lemma C1_example_run :
  self example_world = mkRunner "/bin/tool" example_stored /\
  every_path_is_a_file "/bin/tool" = true /\
  execute sample_format_float every_path_is_a_file child_exits_0
    (SingleLine "run") false false false [] example_world =
  (inr tt,
   mkWorld (mkRunner "/bin/tool" example_stored)
     [ev_isfile "/bin/tool"; ev_subprocess_call example_command []]).
Proof.
  split; [reflexivity | split; [reflexivity |]].
  exact (C1_execute_example_command sample_format_float every_path_is_a_file
           child_exits_0 example_world [] eq_refl eq_refl).
Defined.

(** C2 on the worked example: [nodesktop] comes before [sd], as in the
    registry, although the caller gave [sd] first. *)
Lemma C2_example_options_string :
  _build_options_string sample_format_float example_world =
  (inr ("-nodesktop -sd " ++ dquote ++ "/work" ++ dquote), example_world).
Proof.
  exact (proj1 (proj2
    (C2_options_string_in_registry_order sample_format_float insertion_order
       every_path_is_a_file child_exits_0 example_world
       example_world_reachable)) example_world_well_typed).
Defined.

(** C3 on the flag [sd]. *)
Lemma C3_example_tokens :
  dict_contains "sd" option_defaults = true /\
  _build_options_parameter sample_format_float "sd" (VBool false) = inr None /\
  _build_options_parameter sample_format_float "sd" (VBool true) =
    inr (Some "-sd") /\
  _build_options_parameter sample_format_float "sd" (VStr "/work") =
    inr (Some ("-sd " ++ dquote ++ "/work" ++ dquote)) /\
  _build_options_parameter sample_format_float "sd" (VInt (-42)) =
    inr (Some "-sd -42") /\
  exists msg,
    _build_options_parameter sample_format_float "sd" VNone =
      inl (ValueError msg) /\
    contains "sd" msg.
Proof.
  pose proof (C3_flag_token sample_format_float "sd" eq_refl)
    as (Hf & Ht & Hs & Hi & _ & Hv).
  split; [reflexivity |].
  split; [exact Hf |]. split; [exact Ht |]. split; [exact (Hs "/work") |].
  split; [exact (Hi (-42)%Z) |]. exact (Hv VNone eq_refl).
Defined.

(** C4 on the worked example, for the statement [x]. *)
Lemma C4_example_run :
  execute sample_format_float every_path_is_a_file child_exits_0
    (SingleLine "x") false true true [] example_world =
  (inr tt,
   mkWorld (mkRunner "/bin/tool" example_stored)
     [ev_isfile "/bin/tool";
      ev_subprocess_call
        (example_header ++ " -r " ++ dquote
         ++ "try, x, catch err, fprintf('%s %s', err.identifier, err.message), end, exit"
         ++ dquote) []]).
Proof.
  exact (proj2
    (C4_try_catch_then_exit sample_format_float every_path_is_a_file
       child_exits_0 example_world false [] example_header eq_refl eq_refl)).
Defined.

(** C5 on the worked example: a first call switches [nosplash] on, a
    second one switches it off again and names a log file. *)
Lemma C5_example_two_calls :
  exists w1 w2,
    set_options insertion_order [("nosplash", VBool true)] example_world =
      (inr tt, w1) /\
    set_options insertion_order
      [("nosplash", VBool false); ("logfile", VStr "log.txt")] w1 =
      (inr tt, w2) /\
    forall k,
      dict_get k (_options (self w2)) =
      overriding [("nosplash", VBool false); ("logfile", VStr "log.txt")]
        (overriding [("nosplash", VBool true)]
           (dict_get k (_options (self example_world))) k) k.
Proof.
  refine (proj1
    (C5_set_options_is_a_cumulative_merge sample_format_float insertion_order
       every_path_is_a_file child_exits_0 example_world
       [("nosplash", VBool true)]
       [("nosplash", VBool false); ("logfile", VStr "log.txt")] _ _ _ _)
    example_world_reachable).
  - intros k [<- | []]; reflexivity.
  - intros k [<- | [<- | []]]; reflexivity.
  - repeat constructor; simpl; intros [].
  - repeat constructor; simpl; [intros [H | []]; discriminate H | intros []].
Defined.

(** C6: a call with the one unknown key [foo] raises a ValueError whose
    message is [Invalid options: ['foo']]; no flag of the registry occurs
    in it, so it does not list the valid flag names. *)
Lemma C6_message_omits_the_valid_flags :
  offending [("foo", VBool true)] "foo" /\
  set_options insertion_order [("foo", VBool true)] example_world =
    (inl (ValueError "Invalid options: ['foo']"), example_world) /\
  Forall (fun k => ~ contains k "Invalid options: ['foo']")
         (dict_keys option_defaults).
Proof.
  split; [split; [now left | reflexivity] |].
  split; [reflexivity |].
  repeat (constructor;
          [intros H; apply containsb_complete in H; discriminate H |]).
  constructor.
Qed.

(** C6, as amended, on a call that mixes two unknown keys with a valid
    one: both unknown keys are reported. *)
Lemma C6_example_two_unknown_keys :
  (exists k,
      offending [("foo", VBool true); ("sd", VStr "/work"); ("bar", VNone)] k) /\
  set_options insertion_order
    [("foo", VBool true); ("sd", VStr "/work"); ("bar", VNone)] example_world =
  (inl (ValueError "Invalid options: ['foo', 'bar']"), example_world).
Proof.
  assert (Hoff : exists k,
             offending [("foo", VBool true); ("sd", VStr "/work"); ("bar", VNone)] k)
    by (exists "foo"; split; [now left | reflexivity]).
  split; [exact Hoff |].
  exact (proj1
    (C6_invalid_options_are_all_reported insertion_order
       (fun s => Permutation_refl s)
       [("foo", VBool true); ("sd", VStr "/work"); ("bar", VNone)]
       example_world Hoff)).
Defined.

(** C7 on the same call: the folder given for [sd] is not stored. *)
Lemma C7_example_nothing_is_stored :
  exists msg,
    set_options insertion_order
      [("foo", VBool true); ("sd", VStr "/elsewhere"); ("bar", VNone)]
      example_world = (inl (ValueError msg), example_world) /\
    _options (self (snd (set_options insertion_order
      [("foo", VBool true); ("sd", VStr "/elsewhere"); ("bar", VNone)]
      example_world))) = _options (self example_world).
Proof.
  refine (C7_set_options_fails_without_effect insertion_order
            [("foo", VBool true); ("sd", VStr "/elsewhere"); ("bar", VNone)]
            example_world _).
  exists "foo". split; [now left | reflexivity].
Defined.

(** C8 on a file system with no file: the probe is the only event. *)
Lemma C8_example_no_executable :
  exists msg,
    execute sample_format_float no_file child_exits_0
      (SingleLine "run") false false false [] example_world =
    (inl (FileExistsError msg),
     mkWorld (mkRunner "/bin/tool" example_stored) [ev_isfile "/bin/tool"]).
Proof.
  exact (proj1
    (C8_executable_is_checked_first sample_format_float insertion_order
       no_file child_exits_0)
    example_world (SingleLine "run") false false false [] eq_refl).
Defined.

(** C9 on the worked example, for the lines [a=1] and [b]. *)
Lemma C9_example_run :
  execute sample_format_float every_path_is_a_file child_exits_0
    (MultiLine ["a=1"; "b"]) false false false [] example_world =
  (inr tt,
   mkWorld (mkRunner "/bin/tool" example_stored)
     [ev_isfile "/bin/tool";
      ev_subprocess_call
        (example_header ++ " -r " ++ dquote ++ "a=1, b" ++ dquote) []]).
Proof.
  exact (proj1 (proj2
    (C9_lines_are_joined_first sample_format_float every_path_is_a_file
       child_exits_0 example_world [] example_header eq_refl eq_refl))).
Defined.

(** C10 on the worked example: [None] is accepted as the value of [sd]
    and stored; building the options string then raises. *)
Lemma C10_example_None_is_stored :
  exists w',
    set_options insertion_order [("sd", VNone)] example_world = (inr tt, w') /\
    dict_get "sd" (_options (self w')) = Some VNone /\
    exists msg,
      _build_options_string sample_format_float w' = (inl (ValueError msg), w').
Proof.
  destruct (proj2 (proj2
    (C10_stored_keys_are_the_registry sample_format_float insertion_order
       every_path_is_a_file child_exits_0))
    example_world "sd" VNone example_world_reachable
    (or_intror (or_intror (or_intror (or_introl eq_refl)))))
    as (w' & Hset & Hget & Hbad).
  exists w'. split; [exact Hset | split; [exact Hget | exact (Hbad eq_refl)]].
Defined.

(** * Closed examples of the further properties *)

Lemma bare_world_reachable :
  reachable sample_format_float insertion_order every_path_is_a_file
    child_exits_0 (self bare_world).
Proof.
  exact (reach_init sample_format_float insertion_order every_path_is_a_file
           child_exits_0 "/bin/tool" [] bare_world bare_world eq_refl).
Qed.

Lemma faulty_world_reachable :
  reachable sample_format_float insertion_order every_path_is_a_file
    child_exits_0 (self faulty_world).
Proof.
  exact (reach_init sample_format_float insertion_order every_path_is_a_file
           child_exits_0 "/bin/tool" [("sd", VNone)] bare_world faulty_world
           eq_refl).
Qed.

(** Switching [nosplash] on in the worked example rewrites one item. *)
Lemma set_options_updates_example :
  set_options insertion_order [("nosplash", VBool true)] example_world =
  (inr tt,
   mkWorld (mkRunner "/bin/tool"
              (dict_setitem "nosplash" (VBool true) example_stored)) []).
Proof.
  refine (proj1
    (set_options_updates_the_stored_dict sample_format_float insertion_order
       every_path_is_a_file child_exits_0 example_world
       [("nosplash", VBool true)] example_world_reachable _)).
  intros k [<- | []]; reflexivity.
Defined.

(** The two orders of the keyword arguments of the worked example. *)
Lemma keyword_order_example :
  __init__ insertion_order "/bin/tool"
    [("sd", VStr "/work"); ("nodesktop", VBool true)] bare_world =
  __init__ insertion_order "/bin/tool"
    [("nodesktop", VBool true); ("sd", VStr "/work")] bare_world.
Proof.
  refine (proj2
    (set_options_ignores_keyword_order sample_format_float insertion_order
       every_path_is_a_file child_exits_0 bare_world
       [("sd", VStr "/work"); ("nodesktop", VBool true)]
       [("nodesktop", VBool true); ("sd", VStr "/work")] _ _ _) "/bin/tool").
  - intros k [<- | [<- | []]]; reflexivity.
  - constructor; [intros [H | []]; discriminate H |].
    constructor; [intros [] | constructor].
  - apply perm_swap.
Defined.

Lemma set_options_idempotent_example :
  (set_options insertion_order [("logfile", VStr "log.txt")] ;;;
   set_options insertion_order [("logfile", VStr "log.txt")]) example_world =
  set_options insertion_order [("logfile", VStr "log.txt")] example_world.
Proof.
  refine (set_options_idempotent sample_format_float insertion_order
            every_path_is_a_file child_exits_0 example_world
            [("logfile", VStr "log.txt")] example_world_reachable _ _).
  - intros k [<- | []]; reflexivity.
  - constructor; [intros [] | constructor].
Defined.

Lemma constructor_composition_example :
  __init__ insertion_order "/bin/tool" [("sd", VStr "/work")] bare_world =
  (__init__ insertion_order "/bin/tool" [] ;;;
   set_options insertion_order [("sd", VStr "/work")]) bare_world.
Proof.
  refine (constructor_is_bare_constructor_then_set_options insertion_order
            "/bin/tool" [("sd", VStr "/work")] bare_world _).
  intros k [<- | []]; reflexivity.
Defined.

(** The unknown key [foo] is rejected although its value is [False]. *)
Lemma unknown_key_example :
  exists msg,
    _build_options_parameter sample_format_float "foo" (VBool false) =
      inl (ValueError msg) /\
    contains "foo" msg /\ contains "'wait'" msg.
Proof.
  destruct (_build_options_parameter_rejects_unknown_key sample_format_float
              "foo" (VBool false) eq_refl) as (msg & Hraise & Hkey & Hflags).
  exists msg. split; [exact Hraise | split; [exact Hkey |]].
  apply (Hflags "wait"). simpl. tauto.
Defined.

(** With [None] stored for [sd], the items before [sd] have tokens and
    the error names [sd]. *)
Lemma first_unsupported_value_example :
  faulty_world = faulty_world /\
  exists pre k v post,
    _options (self faulty_world) = (pre ++ (k, v) :: post)%list /\
    well_typed pre /\
    dict_get k (_options (self faulty_world)) = Some v /\
    supported v = false /\
    ValueError "Value for Key sd is not a number or a string" =
    ValueError ("Value for Key " ++ k ++ " is not a number or a string").
Proof.
  exact (_build_options_string_raises_on_first_unsupported_value
           sample_format_float insertion_order every_path_is_a_file
           child_exits_0 faulty_world faulty_world
           (ValueError "Value for Key sd is not a number or a string")
           faulty_world_reachable eq_refl).
Defined.

Lemma execute_raises_before_the_call_example :
  exists msg,
    execute sample_format_float every_path_is_a_file child_exits_0
      (SingleLine "run") false false false [] faulty_world =
    (inl (ValueError msg),
     mkWorld (self faulty_world) [ev_isfile "/bin/tool"]).
Proof.
  exact (execute_raises_before_the_call sample_format_float insertion_order
           every_path_is_a_file child_exits_0 faulty_world "sd" VNone
           (SingleLine "run") false false false [] faulty_world_reachable
           eq_refl eq_refl eq_refl).
Defined.

(** A child that exits with status 3 does not make [execute] fail. *)
Lemma exit_status_example :
  fst (execute sample_format_float every_path_is_a_file
         (fun _ _ => inr 3%Z) (SingleLine "run") false false false []
         example_world) = inr tt.
Proof.
  destruct (execute_drops_the_exit_status sample_format_float
              every_path_is_a_file (fun _ _ => inr 3%Z) example_world
              example_header (SingleLine "run") false false false []
              eq_refl eq_refl) as (command & _ & Hok & _).
  exact (Hok 3%Z eq_refl).
Defined.

Lemma verbatim_statement_example :
  exists before after,
    forall s,
      execute sample_format_float every_path_is_a_file child_exits_0
        (SingleLine s) false true true [] example_world =
      (rbind (child_exits_0 (before ++ s ++ after) []) (fun _ => inr tt),
       mkWorld (self example_world)
         (trace example_world
          ++ [ev_isfile (_exe_path (self example_world));
              ev_subprocess_call (before ++ s ++ after) []])%list).
Proof.
  exact (execute_embeds_the_statement_verbatim sample_format_float
           every_path_is_a_file child_exits_0 example_world example_header
           false true true [] eq_refl eq_refl).
Defined.

(** The worked example in batch mode, with the exit appended. *)
Lemma one_wrapper_example :
  execute sample_format_float every_path_is_a_file child_exits_0
    (SingleLine "run") true false true [] example_world =
  (inr tt,
   mkWorld (mkRunner "/bin/tool" example_stored)
     [ev_isfile "/bin/tool";
      ev_subprocess_call
        (example_header ++ " -batch " ++ dquote ++ "run, exit" ++ dquote) []]).
Proof.
  exact (proj2
    (execute_with_one_wrapper sample_format_float every_path_is_a_file
       child_exits_0 example_world example_header "run" true []
       eq_refl eq_refl)).
Defined.

Lemma header_without_flags_example :
  _build_command_header sample_format_float bare_world =
  (inr "/bin/tool ", bare_world).
Proof.
  refine (proj1
    (header_of_a_runner_without_flags sample_format_float insertion_order
       every_path_is_a_file child_exits_0 bare_world bare_world_reachable _)).
  intros k Hin. simpl in Hin.
  repeat (destruct Hin as [<- | Hin]; [reflexivity |]). destruct Hin.
Defined.

(** Pointing the worked example at a path that is no file. *)
Lemma set_exe_path_example :
  exists msg,
    (set_exe_path "/opt/matlab" ;;;
     execute sample_format_float no_file child_exits_0
       (SingleLine "run") false false false []) example_world =
    (inl (FileExistsError msg),
     mkWorld (mkRunner "/opt/matlab" example_stored)
       [ev_isfile "/opt/matlab"]) /\
    contains "/opt/matlab" msg.
Proof.
  exact (proj1 (proj2
    (set_exe_path_takes_effect_at_the_next_execute sample_format_float
       no_file child_exits_0 example_world "/opt/matlab"
       (SingleLine "run") false false false [])) eq_refl).
Defined.

Lemma constructor_rejects_example :
  __init__ insertion_order "/bin/tool" [("foo", VBool true)] bare_world =
  (inl (ValueError "Invalid options: ['foo']"),
   mkWorld (mkRunner "/bin/tool" []) []).
Proof.
  refine (constructor_rejects_unknown_keys insertion_order "/bin/tool"
            [("foo", VBool true)] bare_world _).
  exists "foo". split; [now left | reflexivity].
Defined.

Lemma set_options_round_trip_example :
  (set_options insertion_order [("nosplash", VBool true)] ;;;
   set_options insertion_order [("nosplash", VBool false)]) example_world =
  (inr tt, example_world).
Proof.
  exact (set_options_round_trip sample_format_float insertion_order
           every_path_is_a_file child_exits_0 example_world "nosplash"
           (VBool false) (VBool true) example_world_reachable eq_refl).
Defined.
